(** * The 8D audio converter: panning, reverb and peak normalisation

    A shallow embedding of the signal-processing core of [another.py]
    ([Audio8DConverter]) and the properties of its four steps: configuration
    validation, panning, reverb and normalisation.

    Number model.  Samples are IEEE binary64 values in the program.  Here a
    finite sample is a real number: sums, products and quotients by a nonzero
    divisor are exact (no rounding, no overflow).  The non-finite values that
    numpy produces when it divides by zero (nan and the two infinities) are
    modelled explicitly by [npfloat].  Python exceptions are values of [exn],
    carried by the error monad [result]. *)

From Stdlib Require Import String Reals Lra Lia ZArith Bool List.
Import ListNotations.

Open Scope string_scope.
Open Scope list_scope.
Open Scope R_scope.

(** ** Python exceptions and the error monad *)

Record exn : Type := Raise { exn_class : string; exn_msg : string }.

Definition ValueError (msg : string) : exn := Raise "ValueError" msg.
Definition IndexError (msg : string) : exn := Raise "IndexError" msg.
Definition ZeroDivisionError (msg : string) : exn := Raise "ZeroDivisionError" msg.

Inductive result (A : Type) : Type :=
| Ok (a : A)
| Err (e : exn).

Arguments Ok {A} a.
Arguments Err {A} e.

Definition bind {A B : Type} (m : result A) (k : A -> result B) : result B :=
  match m with
  | Ok a => k a
  | Err e => Err e
  end.

Notation "x <- m ;; k" := (bind m (fun x => k))
  (at level 61, m at next level, right associativity).

Fixpoint mapM {A B : Type} (f : A -> result B) (l : list A) : result (list B) :=
  match l with
  | [] => Ok []
  | x :: xs => y <- f x ;; ys <- mapM f xs ;; Ok (y :: ys)
  end.

(** The result raises an exception of class [cls]. *)
Definition raises (cls : string) {A : Type} (r : result A) : Prop :=
  exists msg, r = Err (Raise cls msg).

(** The exception classes of Python and numpy that the converter can raise. *)
Definition builtin_exn (e : exn) : Prop :=
  exn_class e = "ValueError" \/ exn_class e = "IndexError" \/
  exn_class e = "ZeroDivisionError".

(** ** Arrays

    A numpy array of one or two dimensions.  A two-dimensional array of shape
    (N, C) is kept as its C columns [a[:, 0]], ..., [a[:, C-1]], each of
    length N, together with N. *)

Inductive ndarray (A : Type) : Type :=
| Arr1 (v : list A)
| Arr2 (nrows : nat) (cols : list (list A)).

Arguments Arr1 {A} v.
Arguments Arr2 {A} nrows cols.

Definition wf {A : Type} (a : ndarray A) : Prop :=
  match a with
  | Arr1 _ => True
  | Arr2 n cols => Forall (fun c => length c = n) cols
  end.

(** [len(a)]: the size of the first axis, the number of frames. *)
Definition len {A : Type} (a : ndarray A) : nat :=
  match a with
  | Arr1 v => length v
  | Arr2 n _ => n
  end.

(** All the elements of the array. *)
Definition elements {A : Type} (a : ndarray A) : list A :=
  match a with
  | Arr1 v => v
  | Arr2 _ cols => concat cols
  end.

Definition amap {A B : Type} (f : A -> B) (a : ndarray A) : ndarray B :=
  match a with
  | Arr1 v => Arr1 (map f v)
  | Arr2 n cols => Arr2 n (map (map f) cols)
  end.

(** [a[:, k]] *)
Definition column {A : Type} (a : ndarray A) (k : nat) : result (list A) :=
  match a with
  | Arr1 _ => Err (IndexError "too many indices for array")
  | Arr2 _ cols =>
      match nth_error cols k with
      | Some c => Ok c
      | None => Err (IndexError "index is out of bounds for axis 1")
      end
  end.

(** Element-wise binary operation on two sequences of one length. *)
Fixpoint zip_with {A B C : Type} (f : A -> B -> C) (xs : list A) (ys : list B)
  : list C :=
  match xs, ys with
  | x :: xs', y :: ys' => f x y :: zip_with f xs' ys'
  | _, _ => []
  end.

(** [np.stack([a, b], axis=1)] of two one-dimensional arrays. *)
Definition stack2 {A : Type} (a b : list A) : ndarray A :=
  Arr2 (length a) [a; b].

(** ** Configuration *)

Record AudioConfig : Type := {
  pan_speed : R;
  depth : R;
  reverb_delay : Z;
  reverb_decay : R
}.

Definition default_config : AudioConfig :=
  {| pan_speed := 0.5; depth := 0.95; reverb_delay := 50; reverb_decay := 0.3 |}.

Definition Rltb (x y : R) : bool := if Rlt_dec x y then true else false.
Definition Rleb (x y : R) : bool := if Rle_dec x y then true else false.

Definition _validate_config (c : AudioConfig) : result unit :=
  if negb (Rltb 0 (pan_speed c) && Rleb (pan_speed c) 2) then
    Err (ValueError "Pan speed must be between 0 and 2 Hz")
  else if negb (Rleb 0 (depth c) && Rleb (depth c) 1) then
    Err (ValueError "Depth must be between 0 and 1")
  else if negb ((0 <? reverb_delay c)%Z && (reverb_delay c <=? 100)%Z) then
    Err (ValueError "Reverb delay must be between 0 and 100 ms")
  else if negb (Rleb 0 (reverb_decay c) && Rleb (reverb_decay c) 1) then
    Err (ValueError "Reverb decay must be between 0 and 1")
  else Ok tt.

(** The configuration has passed validation. *)
Definition validated (c : AudioConfig) : Prop := _validate_config c = Ok tt.

(** ** Panning *)

(** [n / sample_rate] on Python integers: true division, which raises on a
    zero divisor. *)
Definition py_truediv (n : nat) (d : Z) : result R :=
  if (d =? 0)%Z then Err (ZeroDivisionError "division by zero")
  else Ok (INR n / IZR d).

(** [np.linspace(start, stop, num)]: [num] evenly spaced points, both ends
    included; a single point is [start], with no division by [num - 1]. *)
Definition linspace (start stop : R) (num : nat) : list R :=
  match num with
  | O => []
  | S O => [start]
  | _ => let step := (stop - start) / INR (num - 1) in
         map (fun i => start + INR i * step) (seq 0 num)
  end.

Definition pan_curve_of (c : AudioConfig) (t : list R) : list R :=
  map (fun ti => sin (2 * PI * pan_speed c * ti) * depth c) t.

Definition _apply_panning (c : AudioConfig) (audio_data : ndarray R)
  (sample_rate : Z) : result (ndarray R) :=
  duration <- py_truediv (len audio_data) sample_rate ;;
  let t := linspace 0 duration (len audio_data) in
  let pan_curve := pan_curve_of c t in
  let audio_data :=
    match audio_data with
    | Arr1 v => stack2 v v              (* len(audio_data.shape) == 1 *)
    | Arr2 _ _ => audio_data
    end in
  c0 <- column audio_data 0 ;;
  let left_channel := zip_with Rmult c0 (map (fun p => 1 + p) pan_curve) in
  c1 <- column audio_data 1 ;;
  let right_channel := zip_with Rmult c1 (map (fun p => 1 - p) pan_curve) in
  Ok (stack2 left_channel right_channel).

(** ** Reverb *)

Definition Rsum (l : list R) : R := fold_right Rplus 0 l.

(** Sample [n] of the full discrete convolution of [a] and [v]:
    the sum of [a[k] * v[n - k]] over the taps [k] of [a] with [k <= n]. *)
Definition conv_at (a v : list R) (n : nat) : R :=
  Rsum (map (fun k => if (k <=? n)%nat then nth k a 0 * nth (n - k) v 0 else 0)
            (seq 0 (length a))).

(** [np.convolve(a, v)] in its default mode, full: [len a + len v - 1]
    samples; an empty operand is an error. *)
Definition np_convolve (a v : list R) : result (list R) :=
  match a, v with
  | [], [] => Err (ValueError "a cannot be empty")
  | [], _ | _, [] => Err (ValueError "v cannot be empty")
  | _, _ => Ok (map (conv_at a v) (seq 0 (length a + length v - 1)))
  end.

(** [scipy.signal.lfilter(b, [1], x)]: with the denominator [1] the filter is
    a finite impulse response, computed as the full convolution of [b] and
    [x] cut to the length of [x]. *)
Definition lfilter (b x : list R) : result (list R) :=
  out_full <- np_convolve b x ;;
  Ok (firstn (length out_full - length b + 1) out_full).

(** [np.zeros(n)] *)
Definition np_zeros (n : Z) : result (list R) :=
  if (n <? 0)%Z then Err (ValueError "negative dimensions are not allowed")
  else Ok (repeat 0 (Z.to_nat n)).

Fixpoint list_set {A : Type} (l : list A) (i : nat) (v : A) : list A :=
  match l, i with
  | [], _ => []
  | _ :: t, O => v :: t
  | h :: t, S j => h :: list_set t j v
  end.

(** [l[i] = v] on a one-dimensional array: a negative index counts from the
    end, an index outside the array raises. *)
Definition setitem (l : list R) (i : Z) (v : R) : result (list R) :=
  let n := Z.of_nat (length l) in
  if ((i <? - n) || (n <=? i))%Z then
    Err (IndexError "index is out of bounds for axis 0")
  else Ok (list_set l (Z.to_nat (if (i <? 0)%Z then i + n else i)) v).

(** [int(reverb_delay * sample_rate / 1000)]: [int] cuts the quotient
    towards zero. *)
Definition delay_samples (c : AudioConfig) (sample_rate : Z) : Z :=
  Z.quot (reverb_delay c * sample_rate) 1000.

Definition impulse_response (c : AudioConfig) (sample_rate : Z)
  : result (list R) :=
  let d := delay_samples c sample_rate in
  let decay := reverb_decay c in
  ir <- np_zeros d ;;
  ir <- setitem ir 0 1 ;;
  setitem ir (d - 1) decay.

(** [audio_data + audio_reverb * 0.5] on one column. *)
Definition mix (dry wet : list R) : list R :=
  zip_with (fun x r => x + r * 0.5) dry wet.

Definition _apply_reverb (c : AudioConfig) (audio_data : ndarray R)
  (sample_rate : Z) : result (ndarray R) :=
  ir <- impulse_response c sample_rate ;;
  match audio_data with
  | Arr1 _ => Err (IndexError "tuple index out of range")  (* shape[1] *)
  | Arr2 n cols =>
      audio_reverb <- mapM (lfilter ir) cols ;;
      Ok (Arr2 n (zip_with mix cols audio_reverb))
  end.

(** ** Normalisation *)

(** A binary64 value as numpy's division returns it. *)
Inductive npfloat : Type :=
| Fin (r : R)
| PInf
| NInf
| NaN.

(** [x / y] on finite binary64 values under numpy: a zero divisor raises
    nothing, the quotient is nan for 0/0 and an infinity otherwise. *)
Definition np_true_divide (x y : R) : npfloat :=
  if Req_dec_T y 0 then
    if Req_dec_T x 0 then NaN
    else if Rlt_dec 0 x then PInf else NInf
  else Fin (x / y).

(** [np.max(np.abs(a))]: the maximum of an array with no element is an
    error. *)
Definition np_max_abs (a : ndarray R) : result R :=
  match elements a with
  | [] => Err (ValueError
      "zero-size array to reduction operation maximum which has no identity")
  | x :: xs => Ok (fold_left Rmax (map Rabs xs) (Rabs x))
  end.

(** [audio_data / np.max(np.abs(audio_data))] *)
Definition normalize (audio_data : ndarray R) : result (ndarray npfloat) :=
  peak <- np_max_abs audio_data ;;
  Ok (amap (fun x => np_true_divide x peak) audio_data).

(** ** The conversion *)

(** The effects of [convert_file] on the decoded samples: panning, reverb,
    normalisation. *)
Definition apply_effects (c : AudioConfig) (audio_data : ndarray R)
  (frame_rate : Z) : result (ndarray npfloat) :=
  audio_data <- _apply_panning c audio_data frame_rate ;;
  audio_data <- _apply_reverb c audio_data frame_rate ;;
  normalize audio_data.

Fixpoint deinterleave {A : Type} (l : list A) : list A * list A :=
  match l with
  | x :: y :: t => let (e, o) := deinterleave t in (x :: e, y :: o)
  | _ => ([], [])
  end.

(** [samples.reshape(-1, 1)] for one channel, [samples.reshape(-1, 2)]
    otherwise, on the interleaved samples of the decoder. *)
Definition reshape_samples {A : Type} (channels : Z) (samples : list A)
  : result (ndarray A) :=
  if (channels =? 1)%Z then Ok (Arr2 (length samples) [samples])
  else if Nat.even (length samples) then
    let (l, r) := deinterleave samples in Ok (Arr2 (length l) [l; r])
  else Err (ValueError "cannot reshape array into shape (2)").

(** [convert_file] between decoding and encoding: [channels], [frame_rate] and
    [samples] are what the decoder returns, [sample_max] is the largest value
    of the samples' integer type. *)
Definition convert_file (c : AudioConfig) (channels frame_rate : Z)
  (samples : list Z) (sample_max : Z) : result (ndarray npfloat) :=
  samples <- reshape_samples channels samples ;;
  let audio_data := amap (fun s => IZR s / IZR sample_max) samples in
  apply_effects c audio_data frame_rate.

(** [convert_to_8d]: the constructor validates the configuration (and looks
    for the external encoder, which is not part of the model), then the file
    is converted. *)
Definition convert_to_8d (c : AudioConfig) (channels frame_rate : Z)
  (samples : list Z) (sample_max : Z) : result (ndarray npfloat) :=
  _ <- _validate_config c ;;
  convert_file c channels frame_rate samples sample_max.

(** * Vocabulary of the properties *)

(** The ranges of the four parameters. *)
Definition pan_speed_ok (c : AudioConfig) : Prop := 0 < pan_speed c <= 2.

Definition depth_ok (c : AudioConfig) : Prop := 0 <= depth c <= 1.

Definition reverb_delay_ok (c : AudioConfig) : Prop :=
  (0 < reverb_delay c <= 100)%Z.

Definition reverb_decay_ok (c : AudioConfig) : Prop := 0 <= reverb_decay c <= 1.

(** The two channels the panning works on: a one-dimensional buffer is taken
    twice, a two-dimensional one gives its first two columns. *)
Definition stereo_view (a : ndarray R) : option (list R * list R) :=
  match a with
  | Arr1 v => Some (v, v)
  | Arr2 _ (l :: r :: _) => Some (l, r)
  | Arr2 _ _ => None
  end.

(** The time of each frame and the pan curve of a buffer, as
    [_apply_panning] computes them. *)
Definition time_axis (a : ndarray R) (sample_rate : Z) : list R :=
  linspace 0 (INR (len a) / IZR sample_rate) (len a).

Definition pan_curve (c : AudioConfig) (a : ndarray R) (sample_rate : Z) : list R :=
  pan_curve_of c (time_axis a sample_rate).

(** The left and the right gain of the panning on one channel. *)
Definition pan_left (p x : list R) : list R :=
  zip_with Rmult x (map (fun pi => 1 + pi) p).

Definition pan_right (p x : list R) : list R :=
  zip_with Rmult x (map (fun pi => 1 - pi) p).

(** The reverb of one channel under the tap vector [ir], as [_apply_reverb]
    computes it on a channel with at least one sample. *)
Definition reverb_channel (ir x : list R) : list R :=
  mix x (map (conv_at ir x) (seq 0 (length x))).

(** The tap vector as the reverb is specified: as many taps as delay_samples,
    the first 1, the last the decay, the others 0. *)
Definition two_tap_vector (c : AudioConfig) (sr : Z) (ir : list R) : Prop :=
  let d := Z.to_nat (delay_samples c sr) in
  Z.of_nat (length ir) = delay_samples c sr /\
  nth 0 ir 0 = 1 /\
  nth (d - 1) ir 0 = reverb_decay c /\
  forall k, (0 < k < d - 1)%nat -> nth k ir 0 = 0.

(** Sample [i] of the output of [f] on [x] depends only on the samples of [x]
    at the indices up to [i]. *)
Definition causal_at (f : list R -> result (list R)) (x : list R) (i : nat)
  : Prop :=
  forall x', length x' = length x ->
    (forall j, (j <= i)%nat -> nth j x' 0 = nth j x 0) ->
    exists y y', f x = Ok y /\ f x' = Ok y' /\ nth i y' 0 = nth i y 0.

(** One channel [x] of the reverb's input and the same channel [out] of its
    output, under the tap vector [ir]. *)
Definition reverb_of_channel (ir x out : list R) : Prop :=
  exists reverb,
    lfilter ir x = Ok reverb /\
    length out = length x /\
    forall i, (i < length x)%nat ->
      nth i out 0 = nth i x 0 + 0.5 * nth i reverb 0 /\
      causal_at (lfilter ir) x i.

(** The reverb of a stereo buffer with the channels [l] and [r], as it is
    specified. *)
Definition two_tap_reverb (c : AudioConfig) (sr : Z) (l r : list R) : Prop :=
  exists ir outl outr,
    impulse_response c sr = Ok ir /\
    two_tap_vector c sr ir /\
    _apply_reverb c (Arr2 (length l) [l; r]) sr =
      Ok (Arr2 (length l) [outl; outr]) /\
    reverb_of_channel ir l outl /\
    reverb_of_channel ir r outr.

(** The configuration of the examples: the default one with a delay of 1 ms. *)
Definition short_delay_config : AudioConfig :=
  {| pan_speed := 0.5; depth := 0.95; reverb_delay := 1; reverb_decay := 0.3 |}.

(** Every sample is zero. *)
Definition silent (l : list R) : Prop := Forall (fun x => x = 0) l.

(** The scenario: one second of a mono signal at 8000 Hz, every sample 0.5,
    as a one-dimensional array. *)
Definition scenario_frames : nat := Z.to_nat 8000.

Definition scenario_input : ndarray R := Arr1 (repeat 0.5 scenario_frames).

(** The echo of a channel appears at index [k]: before [k] the output [out]
    of the reverb is 1.5 times its input [x], the dry signal plus half of
    the direct tap, and at [k] it is not. *)
Definition echo_appears_at (k : nat) (x out : list R) : Prop :=
  (forall i, (i < k)%nat -> nth i out 0 = 1.5 * nth i x 0) /\
  nth k out 0 <> 1.5 * nth k x 0.

(** In the scenario the echo appears at index [k] in both channels. *)
Definition scenario_echo_at (k : nat) : Prop :=
  exists l r l' r',
    _apply_panning default_config scenario_input 8000 =
      Ok (Arr2 scenario_frames [l; r]) /\
    _apply_reverb default_config (Arr2 scenario_frames [l; r]) 8000 =
      Ok (Arr2 scenario_frames [l'; r']) /\
    echo_appears_at k l l' /\ echo_appears_at k r r'.

(** * The rest of the conversion: quantisation *)

(** The integer part of a real number, cut towards zero: what a C cast of
    a double to an integer does within the integer's range. *)
Definition Rtrunc (x : R) : Z :=
  if Rle_dec 0 x then Int_part x else (- Int_part (- x))%Z.

(** [x * k] on a binary64 value that may be nan or an infinity. *)
Definition np_multiply (x : npfloat) (k : R) : npfloat :=
  match x with
  | Fin r => Fin (r * k)
  | NaN => NaN
  | PInf => if Req_dec_T k 0 then NaN else if Rlt_dec 0 k then PInf else NInf
  | NInf => if Req_dec_T k 0 then NaN else if Rlt_dec 0 k then NInf else PInf
  end.

(** [x.astype(np.int16)] on one value.  A finite value whose integer part is
    an int16 is cut towards zero; for every other value (nan, an infinity, a
    value out of range) numpy leaves the result to the platform: [None]. *)
Definition astype_int16 (x : npfloat) : option Z :=
  match x with
  | Fin r =>
      let z := Rtrunc r in
      if ((-32768 <=? z) && (z <=? 32767))%Z then Some z else None
  | _ => None
  end.

(** [(audio_data * 32767).astype(np.int16)] *)
Definition scale_to_int16 (audio_data : ndarray npfloat) : ndarray (option Z) :=
  amap (fun x => astype_int16 (np_multiply x 32767)) audio_data.

(** * The web application: which file names are accepted

    File names are strings of ASCII characters. *)

From Stdlib Require Import Ascii.

(** [c.lower()] on one character. *)
Definition lower_char (c : ascii) : ascii :=
  let n := nat_of_ascii c in
  if ((65 <=? n) && (n <=? 90))%nat then ascii_of_nat (n + 32) else c.

(** [s.lower()] *)
Fixpoint lower (s : string) : string :=
  match s with
  | EmptyString => EmptyString
  | String c t => String (lower_char c) (lower t)
  end.

(** [c in s] for a character [c]. *)
Fixpoint contains (c : ascii) (s : string) : bool :=
  match s with
  | EmptyString => false
  | String a t => Ascii.eqb a c || contains c t
  end.

(** [s.endswith(suffix)] *)
Fixpoint endswith (s suffix : string) : bool :=
  String.eqb s suffix ||
  match s with
  | EmptyString => false
  | String _ t => endswith t suffix
  end.

(** [s.rsplit(sep, 1)]: [s] cut at the last [sep]; the list has two strings
    when [sep] occurs in [s], and is [[s]] otherwise. *)
Fixpoint rsplit1 (sep : ascii) (s : string) : list string :=
  match s with
  | EmptyString => [EmptyString]
  | String a t =>
      match rsplit1 sep t with
      | [h; r] => [String a h; r]
      | _ => if Ascii.eqb a sep then [EmptyString; t] else [String a t]
      end
  end.

Definition ALLOWED_EXTENSIONS : list string := ["mp3"].

(** [allowed_file]: the second operand of [and] is evaluated only when the
    name contains a dot. *)
Definition allowed_file (filename : string) : result bool :=
  if contains "." filename then
    match nth_error (rsplit1 "." filename) 1 with
    | Some ext => Ok (existsb (String.eqb (lower ext)) ALLOWED_EXTENSIONS)
    | None => Err (IndexError "list index out of range")
    end
  else Ok false.

(** The test of [convert_file] on its input path:
    [input_path.lower().endswith('.mp3')]. *)
Definition is_mp3_path (input_path : string) : bool :=
  endswith (lower input_path) ".mp3".

(** * The converter and the application in their environment

    What the program asks of the operating system and of its libraries is
    kept as a trace of calls; what they answer is given by a [world]. *)

Definition FileNotFoundError (msg : string) : exn := Raise "FileNotFoundError" msg.
Definition RuntimeError (msg : string) : exn := Raise "RuntimeError" msg.

(** The calls that change something outside the program. *)
Inductive call : Type :=
| Save (path : string)                    (* file.save(path) *)
| System (cmd : string)                   (* os.system(cmd) *)
| MakeDirs (path : string)                (* os.makedirs(dirname(abspath(path)), exist_ok=True) *)
| TempFile (name : string)                (* NamedTemporaryFile(delete=False, suffix='.wav') *)
| WriteWav (name : string) (nchannels sampwidth framerate : Z)
           (frames : ndarray (option Z)) (* wave.open(name, 'wb') ... writeframes *)
| Export (src dst : string)               (* AudioSegment.from_wav(src).export(dst, 'mp3', '320k') *)
| Unlink (path : string)                  (* os.unlink(path) *)
| Remove (path : string).                 (* os.remove(path) *)

(** What the decoder returns: [audio.channels], [audio.frame_rate],
    [audio.get_array_of_samples()] and the largest value of the samples'
    integer type. *)
Record audio : Type := {
  channels : Z;
  frame_rate : Z;
  samples : list Z;
  sample_max : Z
}.

Record world : Type := {
  os_system : string -> Z;                (* exit status of a shell command *)
  path_exists : string -> bool;           (* os.path.exists *)
  from_mp3 : string -> result audio;      (* AudioSegment.from_mp3 *)
  temp_name : string;                     (* temp_wav.name *)
  extern : call -> result unit;           (* whether a call returns or raises *)
  now : string;                           (* datetime.now().strftime(...) *)
  secure_filename : string -> string;     (* werkzeug.utils.secure_filename *)
  splitext_root : string -> string;       (* os.path.splitext(name)[0] *)
  py_float : string -> result R;          (* float(s) on a form field *)
  py_int : string -> result Z;            (* int(s) on a form field *)
  send_file : string -> string -> result unit
                                          (* flask.send_file(path, download_name=...) *)
}.

(** A computation that may raise, with the trace of the calls made so far. *)
Definition io (A : Type) : Type := list call -> result A * list call.

Definition io_ret {A : Type} (a : A) : io A := fun tr => (Ok a, tr).

Definition io_raise {A : Type} (e : exn) : io A := fun tr => (Err e, tr).

Definition io_lift {A : Type} (r : result A) : io A := fun tr => (r, tr).

Definition io_bind {A B : Type} (m : io A) (k : A -> io B) : io B :=
  fun tr =>
    match m tr with
    | (Ok a, tr') => k a tr'
    | (Err e, tr') => (Err e, tr')
    end.

Notation "x <~ m ;; k" := (io_bind m (fun x => k))
  (at level 61, m at next level, right associativity).

(** A call is made, recorded, and returns or raises as the world says. *)
Definition perform (w : world) (c : call) : io unit :=
  fun tr => (extern w c, tr ++ [c]).

(** [os.system(cmd)]: the call is recorded, its exit status returned. *)
Definition system (w : world) (cmd : string) : io Z :=
  fun tr => (Ok (os_system w cmd), tr ++ [System cmd]).

Definition nl : string := String "010"%char EmptyString.

Definition ffmpeg_paths : list string :=
  ["ffmpeg"; "/usr/bin/ffmpeg"; "/usr/local/bin/ffmpeg";
   "/opt/homebrew/bin/ffmpeg"].

Definition version_command (path : string) : string :=
  (path ++ " -version > /dev/null 2>&1")%string.

Definition ffmpeg_not_found : string :=
  ("ffmpeg not found. Please install ffmpeg:" ++ nl ++
   "Windows: choco install ffmpeg" ++ nl ++
   "Mac: brew install ffmpeg" ++ nl ++
   "Linux: sudo apt-get install ffmpeg")%string.

(** The loop of [_check_ffmpeg] over the paths still to try. *)
Fixpoint try_paths (w : world) (paths : list string) : io unit :=
  match paths with
  | [] => io_raise (RuntimeError ffmpeg_not_found)
  | path :: rest =>
      status <~ system w (version_command path) ;;
      if (status =? 0)%Z then io_ret tt else try_paths w rest
  end.

Definition _check_ffmpeg (w : world) : io unit := try_paths w ffmpeg_paths.

(** The calls that try the given paths. *)
Definition probes (paths : list string) : list call :=
  map (fun p => System (version_command p)) paths.

(** [Audio8DConverter.__init__]: the converter is its configuration. *)
Definition Audio8DConverter_init (w : world) (config : option AudioConfig)
  : io AudioConfig :=
  let config := match config with Some c => c | None => default_config end in
  _ <~ io_lift (_validate_config config) ;;
  _ <~ _check_ffmpeg w ;;
  io_ret config.

(** The whole of [convert_file], from the input path to the output path. *)
Definition convert_file_path (w : world) (c : AudioConfig)
  (input_path output_path : string) : io bool :=
  if negb (path_exists w input_path) then
    io_raise (FileNotFoundError ("Input file not found: " ++ input_path))
  else if negb (is_mp3_path input_path) then
    io_raise (ValueError "Input file must be an MP3 file")
  else
    _ <~ perform w (MakeDirs output_path) ;;
    a <~ io_lift (from_mp3 w input_path) ;;
    audio_data <~ io_lift (convert_file c (channels a) (frame_rate a)
                             (samples a) (sample_max a)) ;;
    let audio_data := scale_to_int16 audio_data in
    _ <~ perform w (TempFile (temp_name w)) ;;
    _ <~ perform w (WriteWav (temp_name w) 2 2 (frame_rate a) audio_data) ;;
    _ <~ perform w (Export (temp_name w) output_path) ;;
    _ <~ perform w (Unlink (temp_name w)) ;;
    io_ret true.

(** The calls that [convert_file] makes. *)
Definition conversion_call (w : world) (output_path : string) (c : call)
  : Prop :=
  match c with
  | MakeDirs p => p = output_path
  | TempFile t => t = temp_name w
  | WriteWav t nch width _ _ => t = temp_name w /\ nch = 2%Z /\ width = 2%Z
  | Export t p => t = temp_name w /\ p = output_path
  | Unlink t => t = temp_name w
  | _ => False
  end.

(** [convert_to_8d] on paths. *)
Definition convert_to_8d_path (w : world) (input_file output_file : string)
  (config : option AudioConfig) : io bool :=
  converter <~ Audio8DConverter_init w config ;;
  convert_file_path w converter input_file output_file.

(** ** The route [/convert] *)

Definition UPLOAD_FOLDER : string := "uploads".
Definition PROCESSED_FOLDER : string := "processed".

(** [os.path.join(a, b)] for a folder name [a] that does not end with a
    slash: an absolute [b] replaces [a]. *)
Definition os_path_join (a b : string) : string :=
  match b with
  | String "/" _ => b
  | _ => (a ++ "/" ++ b)%string
  end.

(** The request: the name of the uploaded file under the key [file], if
    there is one, and the fields of the form. *)
Record request : Type := {
  files_file : option string;
  form : string -> option string
}.

Inductive response : Type :=
| Json (error : string) (status : Z)          (* jsonify({'error': error}), status *)
| SendFile (path download_name : string).     (* send_file(path, ...) *)

(** [float(request.form.get(key, default))] and
    [int(request.form.get(key, default))] *)
Definition form_float (w : world) (req : request) (key : string) (default : R)
  : result R :=
  match form req key with
  | Some s => py_float w s
  | None => Ok default
  end.

Definition form_int (w : world) (req : request) (key : string) (default : Z)
  : result Z :=
  match form req key with
  | Some s => py_int w s
  | None => Ok default
  end.

Definition input_path_of (w : world) (filename : string) : string :=
  os_path_join UPLOAD_FOLDER
    (splitext_root w (secure_filename w filename) ++ "_" ++ now w ++ ".mp3").

Definition output_path_of (w : world) (filename : string) : string :=
  os_path_join PROCESSED_FOLDER
    (splitext_root w (secure_filename w filename) ++ "_" ++ now w ++ "_8d.mp3").

(** The form fields of a request give the configuration [c]. *)
Definition form_gives (w : world) (req : request) (c : AudioConfig) : Prop :=
  form_float w req "pan_speed" 0.5 = Ok (pan_speed c) /\
  form_float w req "depth" 0.95 = Ok (depth c) /\
  form_int w req "reverb_delay" 50 = Ok (reverb_delay c) /\
  form_float w req "reverb_decay" 0.3 = Ok (reverb_decay c).

(** The calls of a conversion that succeeds. *)
Definition conversion_calls (w : world) (output_path : string) (a : audio)
  (data : ndarray npfloat) : list call :=
  [MakeDirs output_path; TempFile (temp_name w);
   WriteWav (temp_name w) 2 2 (frame_rate a) (scale_to_int16 data);
   Export (temp_name w) output_path; Unlink (temp_name w)].

(** The body of the [try] of [convert_audio].  [send_file] reads the output
    file inside the [try], after the upload was removed: it changes nothing
    outside the program, and may raise. *)
Definition convert_audio_body (w : world) (req : request) : io response :=
  match files_file req with
  | None => io_ret (Json "No file uploaded" 400)
  | Some filename =>
      if String.eqb filename EmptyString then io_ret (Json "No file selected" 400)
      else
        allowed <~ io_lift (allowed_file filename) ;;
        if negb allowed then
          io_ret (Json "Invalid file type. Only MP3 files are allowed" 400)
        else
          let base_filename := splitext_root w (secure_filename w filename) in
          let input_path := input_path_of w filename in
          let output_path := output_path_of w filename in
          _ <~ perform w (Save input_path) ;;
          pan_speed <~ io_lift (form_float w req "pan_speed" 0.5) ;;
          depth <~ io_lift (form_float w req "depth" 0.95) ;;
          reverb_delay <~ io_lift (form_int w req "reverb_delay" 50) ;;
          reverb_decay <~ io_lift (form_float w req "reverb_decay" 0.3) ;;
          let config := {| pan_speed := pan_speed; depth := depth;
                           reverb_delay := reverb_delay;
                           reverb_decay := reverb_decay |} in
          converter <~ Audio8DConverter_init w (Some config) ;;
          _ <~ convert_file_path w converter input_path output_path ;;
          _ <~ perform w (Remove input_path) ;;
          _ <~ io_lift (send_file w output_path (base_filename ++ "_8d.mp3")) ;;
          io_ret (SendFile output_path (base_filename ++ "_8d.mp3"))
  end.

(** [convert_audio]: every exception becomes a response with the status 500
    and the text of the exception. *)
Definition convert_audio (w : world) (req : request) : response * list call :=
  match convert_audio_body w req [] with
  | (Ok r, tr) => (r, tr)
  | (Err e, tr) => (Json (exn_msg e) 500, tr)
  end.

(** ** A world and a request for the examples

    Every call returns, ffmpeg is found at the first path, the decoder
    returns one stereo frame at 8000 Hz, the form is empty, the output file
    can be sent. *)

Definition example_audio : audio :=
  {| channels := 2; frame_rate := 8000; samples := [16384; 8192]%Z;
     sample_max := 32767 |}.

Definition example_world : world :=
  {| os_system := fun _ => 0%Z;
     path_exists := fun _ => true;
     from_mp3 := fun _ => Ok example_audio;
     temp_name := "/tmp/tmp0.wav";
     extern := fun _ => Ok tt;
     now := "20240101_120000";
     secure_filename := fun s => s;
     splitext_root := fun _ => "song";
     py_float := fun _ => Ok 1;
     py_int := fun _ => Ok 1%Z;
     send_file := fun _ _ => Ok tt |}.

Definition example_request : request :=
  {| files_file := Some "song.mp3"; form := fun _ => None |}.

(** The same world without ffmpeg, and with a mono decoder. *)
Definition world_without_ffmpeg : world :=
  {| os_system := fun _ => 1%Z;
     path_exists := path_exists example_world;
     from_mp3 := from_mp3 example_world;
     temp_name := temp_name example_world;
     extern := extern example_world;
     now := now example_world;
     secure_filename := secure_filename example_world;
     splitext_root := splitext_root example_world;
     py_float := py_float example_world;
     py_int := py_int example_world;
     send_file := send_file example_world |}.

Definition mono_world : world :=
  {| os_system := os_system example_world;
     path_exists := path_exists example_world;
     from_mp3 := fun _ =>
       Ok {| channels := 1; frame_rate := 8000; samples := [16384; 8192]%Z;
             sample_max := 32767 |};
     temp_name := temp_name example_world;
     extern := extern example_world;
     now := now example_world;
     secure_filename := secure_filename example_world;
     splitext_root := splitext_root example_world;
     py_float := py_float example_world;
     py_int := py_int example_world;
     send_file := send_file example_world |}.

(** The example world with an encoder that fails. *)
Definition failing_export_world : world :=
  {| os_system := os_system example_world;
     path_exists := path_exists example_world;
     from_mp3 := from_mp3 example_world;
     temp_name := temp_name example_world;
     extern := fun c => match c with
                        | Export _ _ => Err (RuntimeError "encoding failed")
                        | _ => Ok tt
                        end;
     now := now example_world;
     secure_filename := secure_filename example_world;
     splitext_root := splitext_root example_world;
     py_float := py_float example_world;
     py_int := py_int example_world;
     send_file := send_file example_world |}.

(** A world that reads every float field as 7, and a request whose depth
    field is set. *)
Definition out_of_range_world : world :=
  {| os_system := os_system example_world;
     path_exists := path_exists example_world;
     from_mp3 := from_mp3 example_world;
     temp_name := temp_name example_world;
     extern := extern example_world;
     now := now example_world;
     secure_filename := secure_filename example_world;
     splitext_root := splitext_root example_world;
     py_float := fun _ => Ok 7;
     py_int := py_int example_world;
     send_file := send_file example_world |}.

Definition out_of_range_request : request :=
  {| files_file := Some "song.mp3";
     form := fun key => if String.eqb key "depth" then Some "7" else None |}.



(** * Properties *)

(** ** Comparisons *)

Lemma Rleb_false (x y : R) : ~ x <= y -> Rleb x y = false.
Proof.
  intros H; unfold Rleb; destruct (Rle_dec x y); [contradiction | reflexivity].
Qed.

Lemma Rltb_spec (x y : R) : Rltb x y = true <-> x < y.
Proof.
  unfold Rltb; destruct (Rlt_dec x y); split; intro; try assumption;
    try reflexivity; try discriminate; contradiction.
Qed.

Lemma Rleb_spec (x y : R) : Rleb x y = true <-> x <= y.
Proof.
  unfold Rleb; destruct (Rle_dec x y); split; intro; try assumption;
    try reflexivity; try discriminate; contradiction.
Qed.

(** The Python test [lo < x <= hi]. *)
Lemma open_closed_spec (lo x hi : R) :
  Rltb lo x && Rleb x hi = true <-> lo < x <= hi.
Proof. rewrite andb_true_iff, Rltb_spec, Rleb_spec; reflexivity. Qed.

(** The Python test [lo <= x <= hi]. *)
Lemma closed_spec (lo x hi : R) :
  Rleb lo x && Rleb x hi = true <-> lo <= x <= hi.
Proof. rewrite andb_true_iff, !Rleb_spec; reflexivity. Qed.

Lemma Z_open_closed_spec (lo x hi : Z) :
  ((lo <? x) && (x <=? hi))%Z = true <-> (lo < x <= hi)%Z.
Proof. rewrite andb_true_iff, Z.ltb_lt, Z.leb_le; reflexivity. Qed.

Lemma test_false_iff (b : bool) (P : Prop) :
  (b = true <-> P) -> (negb b = true <-> ~ P).
Proof.
  intros H; destruct b; simpl; split; intro H1; try discriminate.
  - exfalso; apply H1, H; reflexivity.
  - intro HP; apply H in HP; discriminate.
  - reflexivity.
Qed.

Lemma validate_ok_iff (c : AudioConfig) :
  validated c <->
  pan_speed_ok c /\ depth_ok c /\ reverb_delay_ok c /\ reverb_decay_ok c.
Proof.
  unfold validated, _validate_config, pan_speed_ok, depth_ok, reverb_delay_ok,
    reverb_decay_ok.
  pose proof (open_closed_spec 0 (pan_speed c) 2) as H1.
  pose proof (closed_spec 0 (depth c) 1) as H2.
  pose proof (Z_open_closed_spec 0 (reverb_delay c) 100) as H3.
  pose proof (closed_spec 0 (reverb_decay c) 1) as H4.
  destruct (Rltb 0 (pan_speed c) && Rleb (pan_speed c) 2);
    destruct (Rleb 0 (depth c) && Rleb (depth c) 1);
    destruct ((0 <? reverb_delay c)%Z && (reverb_delay c <=? 100)%Z);
    destruct (Rleb 0 (reverb_decay c) && Rleb (reverb_decay c) 1);
    simpl; split; intro H;
    try discriminate; try reflexivity;
    try (repeat split; first [apply H1 | apply H2 | apply H3 | apply H4];
         reflexivity);
    destruct H as (G1 & G2 & G3 & G4);
    first [ apply H1 in G1; discriminate | apply H2 in G2; discriminate
          | apply H3 in G3; discriminate | apply H4 in G4; discriminate ].
Qed.

(** The four range goals of a concrete configuration. *)
Ltac solve_ranges :=
  unfold pan_speed_ok, depth_ok, reverb_delay_ok, reverb_decay_ok; simpl;
  repeat split; try lra; lia.

Lemma validated_default : validated default_config.
Proof.
  apply validate_ok_iff.
  solve_ranges.
Qed.

(** C5.  Validation succeeds exactly when the four parameters are in their
    ranges: pan_speed in (0, 2], depth in [0, 1], reverb_delay in (0, 100],
    reverb_decay in [0, 1].  Otherwise it raises the error that names the
    first parameter out of range, in the order pan_speed, depth, reverb_delay,
    reverb_decay.  A pan speed of 2.0 passes, a pan speed of 2.0001 fails. *)
Theorem C5_validate_config (c : AudioConfig) :
  (_validate_config c = Ok tt <->
     pan_speed_ok c /\ depth_ok c /\ reverb_delay_ok c /\ reverb_decay_ok c) /\
  (~ pan_speed_ok c ->
     _validate_config c = Err (ValueError "Pan speed must be between 0 and 2 Hz")) /\
  (pan_speed_ok c -> ~ depth_ok c ->
     _validate_config c = Err (ValueError "Depth must be between 0 and 1")) /\
  (pan_speed_ok c -> depth_ok c -> ~ reverb_delay_ok c ->
     _validate_config c =
       Err (ValueError "Reverb delay must be between 0 and 100 ms")) /\
  (pan_speed_ok c -> depth_ok c -> reverb_delay_ok c -> ~ reverb_decay_ok c ->
     _validate_config c =
       Err (ValueError "Reverb decay must be between 0 and 1")) /\
  _validate_config
    {| pan_speed := 2.0; depth := 0.95; reverb_delay := 50;
       reverb_decay := 0.3 |} = Ok tt /\
  _validate_config
    {| pan_speed := 2.0001; depth := depth c; reverb_delay := reverb_delay c;
       reverb_decay := reverb_decay c |} =
  Err (ValueError "Pan speed must be between 0 and 2 Hz").
Proof.
  split; [apply validate_ok_iff |].
  pose proof (test_false_iff _ _ (open_closed_spec 0 (pan_speed c) 2)) as H1.
  pose proof (test_false_iff _ _ (closed_spec 0 (depth c) 1)) as H2.
  pose proof (test_false_iff _ _ (Z_open_closed_spec 0 (reverb_delay c) 100)) as H3.
  pose proof (test_false_iff _ _ (closed_spec 0 (reverb_decay c) 1)) as H4.
  unfold pan_speed_ok, depth_ok, reverb_delay_ok, reverb_decay_ok,
    _validate_config.
  repeat split.
  - intros N1. apply H1 in N1. rewrite N1. reflexivity.
  - intros P1 N2. apply open_closed_spec in P1. apply H2 in N2.
    rewrite P1, N2. reflexivity.
  - intros P1 P2 N3. apply open_closed_spec in P1. apply closed_spec in P2.
    apply H3 in N3. rewrite P1, P2, N3. reflexivity.
  - intros P1 P2 P3 N4. apply open_closed_spec in P1. apply closed_spec in P2.
    apply Z_open_closed_spec in P3. apply H4 in N4.
    rewrite P1, P2, P3, N4. reflexivity.
  - apply validate_ok_iff.
    solve_ranges.
  - simpl. rewrite (Rleb_false _ 2) by lra. rewrite andb_false_r. reflexivity.
Qed.

(** ** Sequences *)

Lemma length_nonempty {A : Type} (l : list A) :
  (1 <= length l)%nat -> l <> [].
Proof. intros H E. subst l. simpl in H. lia. Qed.

Lemma zip_with_length {A B C : Type} (f : A -> B -> C) (xs : list A) (ys : list B) :
  length (zip_with f xs ys) = Nat.min (length xs) (length ys).
Proof.
  revert ys; induction xs as [| x xs IH]; intros [| y ys]; simpl; auto.
Qed.

Lemma zip_with_nth {A B C : Type} (f : A -> B -> C) (xs : list A) (ys : list B)
  (i : nat) (da : A) (db : B) (dc : C) :
  (i < length xs)%nat -> (i < length ys)%nat ->
  nth i (zip_with f xs ys) dc = f (nth i xs da) (nth i ys db).
Proof.
  revert ys i; induction xs as [| x xs IH]; intros [| y ys] [| i] Hx Hy;
    simpl in *; try lia; auto.
  apply IH; lia.
Qed.

Lemma zip_with_nil_r {A B C : Type} (f : A -> B -> C) (xs : list A) :
  zip_with f xs [] = [].
Proof. destruct xs; reflexivity. Qed.

Lemma zip_with_map_r {A B B' C : Type} (f : A -> B -> C) (g : B' -> B)
  (xs : list A) (ys : list B') :
  zip_with f xs (map g ys) = zip_with (fun x y => f x (g y)) xs ys.
Proof.
  revert ys; induction xs as [| x xs IH]; intros [| y ys]; simpl; auto.
  rewrite IH; reflexivity.
Qed.

Lemma linspace_length (start stop : R) (num : nat) :
  length (linspace start stop num) = num.
Proof.
  destruct num as [| [| n]]; simpl; auto.
  rewrite length_map, length_seq. reflexivity.
Qed.

Lemma linspace_nth (start stop : R) (num i : nat) :
  (2 <= num)%nat -> (i < num)%nat ->
  nth i (linspace start stop num) 0 =
  start + INR i * ((stop - start) / INR (num - 1)).
Proof.
  intros H2 Hi. destruct num as [| [| n]]; try lia.
  unfold linspace.
  set (f := fun i0 : nat => start + INR i0 * ((stop - start) / INR (S (S n) - 1))).
  change 0 with (0 : R).
  rewrite (nth_indep _ 0 (f 0%nat)) by (rewrite length_map, length_seq; lia).
  rewrite map_nth, seq_nth by lia. reflexivity.
Qed.

Lemma pan_curve_length (c : AudioConfig) (t : list R) :
  length (pan_curve_of c t) = length t.
Proof. unfold pan_curve_of. apply length_map. Qed.

Lemma pan_curve_nth (c : AudioConfig) (t : list R) (i : nat) :
  (i < length t)%nat ->
  nth i (pan_curve_of c t) 0 = sin (2 * PI * pan_speed c * nth i t 0) * depth c.
Proof.
  intros Hi. unfold pan_curve_of.
  set (f := fun ti : R => sin (2 * PI * pan_speed c * ti) * depth c).
  rewrite (nth_indep _ 0 (f 0)) by (rewrite length_map; lia).
  rewrite map_nth. reflexivity.
Qed.

(** The pan curve stays within the depth. *)
Lemma pan_curve_bound (c : AudioConfig) (x : R) :
  depth_ok c ->
  - depth c <= sin x * depth c <= depth c.
Proof.
  unfold depth_ok. intros [H0 H1]. pose proof (SIN_bound x) as [Hs1 Hs2].
  split; nra.
Qed.

(** ** Panning *)

Lemma panning_ok (c : AudioConfig) (a : ndarray R) (sr : Z) (l r : list R) :
  sr <> 0%Z -> stereo_view a = Some (l, r) ->
  _apply_panning c a sr =
  Ok (stack2 (pan_left (pan_curve c a sr) l) (pan_right (pan_curve c a sr) r)).
Proof.
  intros Hsr Hv. unfold _apply_panning, py_truediv.
  destruct (Z.eqb_spec sr 0) as [E | _]; [contradiction |].
  destruct a as [v | n [| c0 [| c1 cols]]]; simpl in Hv; try discriminate;
    inversion Hv; subst; reflexivity.
Qed.

Lemma stereo_view_length (a : ndarray R) (l r : list R) :
  wf a -> stereo_view a = Some (l, r) ->
  length l = len a /\ length r = len a.
Proof.
  destruct a as [v | n [| c0 [| c1 cols]]]; simpl; intros Hwf Hv;
    try discriminate; inversion Hv; subst; auto.
  inversion Hwf as [| ? ? H0 Hwf']; subst.
  inversion Hwf' as [| ? ? H1 _]; subst. auto.
Qed.

Lemma pan_curve_len (c : AudioConfig) (a : ndarray R) (sr : Z) :
  length (pan_curve c a sr) = len a.
Proof.
  unfold pan_curve, time_axis. rewrite pan_curve_length, linspace_length.
  reflexivity.
Qed.

Lemma pan_left_nth (p x : list R) (i : nat) :
  (i < length x)%nat -> (i < length p)%nat ->
  nth i (pan_left p x) 0 = nth i x 0 * (1 + nth i p 0).
Proof.
  intros Hx Hp. unfold pan_left. rewrite zip_with_map_r.
  apply (zip_with_nth (fun x0 y => x0 * (1 + y))); assumption.
Qed.

Lemma pan_right_nth (p x : list R) (i : nat) :
  (i < length x)%nat -> (i < length p)%nat ->
  nth i (pan_right p x) 0 = nth i x 0 * (1 - nth i p 0).
Proof.
  intros Hx Hp. unfold pan_right. rewrite zip_with_map_r.
  apply (zip_with_nth (fun x0 y => x0 * (1 - y))); assumption.
Qed.

Lemma pan_left_length (p x : list R) :
  length p = length x -> length (pan_left p x) = length x.
Proof.
  intros H. unfold pan_left. rewrite zip_with_length, length_map. lia.
Qed.

Lemma pan_right_length (p x : list R) :
  length p = length x -> length (pan_right p x) = length x.
Proof.
  intros H. unfold pan_right. rewrite zip_with_length, length_map. lia.
Qed.

Lemma time_axis_single (a : ndarray R) (sr : Z) :
  len a = 1%nat -> time_axis a sr = [0].
Proof. intros H. unfold time_axis. rewrite H. reflexivity. Qed.

Lemma time_axis_nth (a : ndarray R) (sr : Z) (i : nat) :
  (2 <= len a)%nat -> (i < len a)%nat ->
  nth i (time_axis a sr) 0 =
  INR i * (INR (len a) / IZR sr) / INR (len a - 1).
Proof.
  intros H2 Hi. unfold time_axis. rewrite linspace_nth by assumption.
  unfold Rdiv. ring.
Qed.

(** C4.  For a buffer of N >= 1 frames at sample rate sr and a validated
    configuration, the panning computes the times t[i] = i * duration / (N - 1)
    with duration = N / sr, and t = [0] when N = 1 with no division error;
    the pan curve p[i] = sin(2 pi pan_speed t[i]) * depth lies in
    [-depth, depth], itself within [-1, 1]; and the output is
    left'[i] = left[i] * (1 + p[i]), right'[i] = right[i] * (1 - p[i]). *)
Theorem C4_panning_formula (c : AudioConfig) (a : ndarray R) (sr : Z)
  (l r : list R) :
  validated c -> (0 < sr)%Z -> wf a -> (1 <= len a)%nat ->
  stereo_view a = Some (l, r) ->
  let N := len a in
  let duration := INR N / IZR sr in
  let t := time_axis a sr in
  let p := pan_curve c a sr in
  py_truediv N sr = Ok duration /\
  length t = N /\ length p = N /\
  (N = 1%nat -> t = [0]) /\
  (forall i, (2 <= N)%nat -> (i < N)%nat ->
     nth i t 0 = INR i * duration / INR (N - 1)) /\
  (forall i, (i < N)%nat ->
     nth i p 0 = sin (2 * PI * pan_speed c * nth i t 0) * depth c /\
     - depth c <= nth i p 0 <= depth c) /\
  -1 <= - depth c /\ depth c <= 1 /\
  exists l' r',
    _apply_panning c a sr = Ok (Arr2 N [l'; r']) /\
    length l' = N /\ length r' = N /\
    forall i, (i < N)%nat ->
      nth i l' 0 = nth i l 0 * (1 + nth i p 0) /\
      nth i r' 0 = nth i r 0 * (1 - nth i p 0).
Proof.
  intros Hval Hsr Hwf HN Hview N duration t p. subst duration N.
  apply validate_ok_iff in Hval. destruct Hval as (_ & Hd & _ & _).
  destruct (stereo_view_length a l r Hwf Hview) as [Hl Hr].
  assert (Ht : length t = len a) by apply linspace_length.
  assert (Hp : length p = len a) by apply pan_curve_len.
  split.
  { unfold py_truediv. destruct (Z.eqb_spec sr 0); [lia | reflexivity]. }
  split; [exact Ht |]. split; [exact Hp |].
  split; [apply time_axis_single |].
  split; [intros i H2 Hi; apply time_axis_nth; assumption |].
  split.
  { intros i Hi. unfold p, pan_curve.
    rewrite pan_curve_nth by (fold t; lia).
    split; [reflexivity | apply pan_curve_bound; exact Hd]. }
  split; [unfold depth_ok in Hd; lra |].
  split; [unfold depth_ok in Hd; lra |].
  exists (pan_left p l), (pan_right p r).
  split.
  { rewrite (panning_ok c a sr l r) by (auto; lia).
    unfold stack2. fold p. rewrite pan_left_length by lia.
    rewrite Hl. reflexivity. }
  split; [rewrite pan_left_length; lia |].
  split; [rewrite pan_right_length; lia |].
  intros i Hi. split.
  - apply pan_left_nth; lia.
  - apply pan_right_nth; lia.
Qed.

(** A mono buffer given as a one-dimensional array is duplicated: the output
    is stereo with the same number of frames, and its two channels mirror
    each other around the input. *)
Lemma panning_mono_1d (c : AudioConfig) (v : list R) (sr : Z) :
  sr <> 0%Z ->
  let p := pan_curve c (Arr1 v) sr in
  _apply_panning c (Arr1 v) sr =
    Ok (Arr2 (length v) [pan_left p v; pan_right p v]) /\
  length (pan_left p v) = length v /\
  length (pan_right p v) = length v /\
  forall i, (i < length v)%nat ->
    nth i (pan_left p v) 0 + nth i (pan_right p v) 0 = 2 * nth i v 0.
Proof.
  intros Hsr p.
  assert (Hp : length p = length v) by apply (pan_curve_len c (Arr1 v) sr).
  split.
  { rewrite (panning_ok c (Arr1 v) sr v v) by auto.
    unfold stack2. fold p. rewrite pan_left_length by assumption. reflexivity. }
  split; [apply pan_left_length; assumption |].
  split; [apply pan_right_length; assumption |].
  intros i Hi.
  rewrite pan_left_nth, pan_right_nth by lia. ring.
Qed.

(** C2.  A mono file reaches the panning as a two-dimensional array with one
    column ([reshape(-1, 1)]), which the panning does not duplicate: reading
    the second column raises IndexError, whatever the samples are. *)
Theorem C2_mono_file_raises (c : AudioConfig) (frame_rate : Z)
  (samples : list Z) (sample_max : Z) :
  convert_file c 1 frame_rate samples sample_max =
  Err (if (frame_rate =? 0)%Z then ZeroDivisionError "division by zero"
       else IndexError "index is out of bounds for axis 1").
Proof.
  unfold convert_file, reshape_samples, apply_effects, _apply_panning,
    py_truediv; simpl.
  destruct (frame_rate =? 0)%Z; reflexivity.
Qed.

(** ** The impulse response *)

Lemma list_set_repeat_last {A : Type} (x v : A) (m : nat) :
  list_set (repeat x (S m)) m v = repeat x m ++ [v].
Proof. induction m as [| m IH]; simpl in *; [reflexivity | rewrite IH; reflexivity]. Qed.

Lemma np_zeros_ok (n : Z) :
  (0 <= n)%Z -> np_zeros n = Ok (repeat 0 (Z.to_nat n)).
Proof.
  intros H. unfold np_zeros. destruct (Z.ltb_spec n 0); [lia | reflexivity].
Qed.

(** Two samples or more: the direct tap, zeros, the decay tap. *)
Lemma impulse_response_taps (c : AudioConfig) (sr : Z) (m : nat) :
  delay_samples c sr = Z.of_nat (S (S m)) ->
  impulse_response c sr = Ok (1 :: repeat 0 m ++ [reverb_decay c]).
Proof.
  intros Hd. unfold impulse_response. rewrite Hd, np_zeros_ok by lia.
  rewrite Nat2Z.id. cbn [bind].
  change (repeat 0 (S (S m))) with (0 :: repeat 0 (S m)).
  assert (Hlen : Z.of_nat (length (0 :: repeat 0 (S m))) = Z.of_nat (S (S m))).
  { cbn [length]. rewrite repeat_length. reflexivity. }
  unfold setitem at 1. rewrite Hlen.
  destruct (Z.ltb_spec 0 (- Z.of_nat (S (S m)))); [lia |].
  destruct (Z.leb_spec (Z.of_nat (S (S m))) 0); [lia |].
  cbn [orb bind]. rewrite Z.ltb_irrefl.
  change (list_set (0 :: repeat 0 (S m)) (Z.to_nat 0) 1)
    with (1 :: repeat 0 (S m)).
  unfold setitem.
  change (length (1 :: repeat 0 (S m))) with (length (0 :: repeat 0 (S m))).
  rewrite Hlen.
  destruct (Z.ltb_spec (Z.of_nat (S (S m)) - 1) (- Z.of_nat (S (S m)))); [lia |].
  destruct (Z.leb_spec (Z.of_nat (S (S m))) (Z.of_nat (S (S m)) - 1)); [lia |].
  cbn [orb].
  destruct (Z.ltb_spec (Z.of_nat (S (S m)) - 1) 0); [lia |].
  replace (Z.to_nat (Z.of_nat (S (S m)) - 1)) with (S m) by lia.
  change (list_set (1 :: repeat 0 (S m)) (S m) (reverb_decay c))
    with (1 :: list_set (repeat 0 (S m)) m (reverb_decay c)).
  rewrite list_set_repeat_last. reflexivity.
Qed.

(** One sample: index 0 is also the last index, and the decay tap replaces
    the direct tap. *)
Lemma impulse_response_one (c : AudioConfig) (sr : Z) :
  delay_samples c sr = 1%Z ->
  impulse_response c sr = Ok [reverb_decay c].
Proof.
  intros Hd. unfold impulse_response. rewrite Hd. reflexivity.
Qed.

(** No sample: the first assignment is out of range. *)
Lemma impulse_response_zero (c : AudioConfig) (sr : Z) :
  delay_samples c sr = 0%Z ->
  impulse_response c sr = Err (IndexError "index is out of bounds for axis 0").
Proof.
  intros Hd. unfold impulse_response. rewrite Hd. reflexivity.
Qed.

Lemma impulse_response_negative (c : AudioConfig) (sr : Z) :
  (delay_samples c sr < 0)%Z ->
  impulse_response c sr = Err (ValueError "negative dimensions are not allowed").
Proof.
  intros Hd. unfold impulse_response, np_zeros.
  destruct (Z.ltb_spec (delay_samples c sr) 0); [reflexivity | lia].
Qed.

Lemma impulse_response_nonempty (c : AudioConfig) (sr : Z) (ir : list R) :
  impulse_response c sr = Ok ir -> ir <> [].
Proof.
  intros H E. subst ir.
  destruct (Z.lt_trichotomy (delay_samples c sr) 0) as [Hn | [Hz | Hp]].
  - rewrite impulse_response_negative in H by assumption. discriminate.
  - rewrite impulse_response_zero in H by assumption. discriminate.
  - destruct (Z.eq_dec (delay_samples c sr) 1) as [H1 | H1].
    + rewrite impulse_response_one in H by assumption. discriminate.
    + rewrite (impulse_response_taps c sr (Z.to_nat (delay_samples c sr) - 2))
        in H by lia.
      discriminate.
Qed.

(** ** Convolution *)

Lemma Rsum_app (l1 l2 : list R) : Rsum (l1 ++ l2) = Rsum l1 + Rsum l2.
Proof.
  unfold Rsum. induction l1 as [| x l1 IH]; simpl; [ring | rewrite IH; ring].
Qed.

Lemma Rsum_map_zero {A : Type} (f : A -> R) (l : list A) :
  (forall x, In x l -> f x = 0) -> Rsum (map f l) = 0.
Proof.
  unfold Rsum. induction l as [| x l IH]; intros H; simpl; [reflexivity |].
  rewrite (H x) by (left; reflexivity).
  rewrite IH by (intros y Hy; apply H; right; assumption). ring.
Qed.

(** With the taps [1, 0, ..., 0, g] the convolution is the input plus the
    input delayed by the index of the last tap and scaled by [g]. *)
Lemma conv_at_two_taps (m : nat) (g : R) (x : list R) (n : nat) :
  conv_at (1 :: repeat 0 m ++ [g]) x n =
  nth n x 0 + (if (S m <=? n)%nat then g * nth (n - S m) x 0 else 0).
Proof.
  unfold conv_at.
  replace (length (1 :: repeat 0 m ++ [g])) with (S (m + 1))
    by (simpl; rewrite length_app, repeat_length; simpl; lia).
  rewrite <- cons_seq, seq_app. simpl seq. rewrite map_cons, map_app.
  change (Rsum (?a :: ?l)) with (a + Rsum l). rewrite Rsum_app.
  rewrite Rsum_map_zero.
  - cbn [map Rsum fold_right Nat.leb nth]. rewrite Nat.sub_0_r.
    replace (nth m (repeat 0 m ++ [g]) 0) with g
      by (rewrite app_nth2, repeat_length, Nat.sub_diag by (rewrite repeat_length; lia);
          reflexivity).
    destruct (S m <=? n)%nat; ring.
  - intros k Hk. apply in_seq in Hk.
    destruct k as [| k]; [lia |]. cbn [nth].
    rewrite app_nth1 by (rewrite repeat_length; lia).
    rewrite nth_repeat. destruct (S k <=? n)%nat; ring.
Qed.

Lemma conv_at_one_tap (g : R) (x : list R) (n : nat) :
  conv_at [g] x n = g * nth n x 0.
Proof.
  unfold conv_at. simpl. rewrite Nat.sub_0_r. ring.
Qed.

Lemma firstn_seq_prefix (s n k : nat) : firstn n (seq s (n + k)) = seq s n.
Proof.
  rewrite seq_app, firstn_app, length_seq, Nat.sub_diag.
  rewrite firstn_all2 by (rewrite length_seq; lia).
  simpl. apply app_nil_r.
Qed.

(** The filter of a nonempty input by a nonempty tap vector: sample [n] of
    the output is sample [n] of the convolution. *)
Lemma lfilter_ok (b x : list R) :
  b <> [] -> x <> [] ->
  lfilter b x = Ok (map (conv_at b x) (seq 0 (length x))).
Proof.
  intros Hb Hx. unfold lfilter, np_convolve.
  destruct b as [| b0 b']; [contradiction |].
  destruct x as [| x0 x']; [contradiction |].
  cbn [bind]. f_equal.
  rewrite length_map, length_seq.
  replace (length (b0 :: b') + length (x0 :: x') - 1 - length (b0 :: b') + 1)%nat
    with (length (x0 :: x')) by (simpl; lia).
  rewrite firstn_map. f_equal.
  replace (length (b0 :: b') + length (x0 :: x') - 1)%nat
    with (length (x0 :: x') + length b')%nat by (simpl; lia).
  apply firstn_seq_prefix.
Qed.

Lemma lfilter_empty (b : list R) : exists msg, lfilter b [] = Err (ValueError msg).
Proof. destruct b; simpl; eexists; reflexivity. Qed.

Lemma mapM_ok {A B : Type} (f : A -> result B) (g : A -> B) (l : list A) :
  (forall x, In x l -> f x = Ok (g x)) -> mapM f l = Ok (map g l).
Proof.
  induction l as [| x l IH]; intros H; simpl; [reflexivity |].
  rewrite (H x) by (left; reflexivity). cbn [bind].
  rewrite IH by (intros y Hy; apply H; right; assumption). reflexivity.
Qed.

Lemma mix_nth (dry wet : list R) (i : nat) :
  (i < length dry)%nat -> (i < length wet)%nat ->
  nth i (mix dry wet) 0 = nth i dry 0 + nth i wet 0 * 0.5.
Proof.
  intros Hd Hw. unfold mix.
  apply (zip_with_nth (fun x r => x + r * 0.5)); assumption.
Qed.

Lemma mix_length (dry wet : list R) :
  length wet = length dry -> length (mix dry wet) = length dry.
Proof. intros H. unfold mix. rewrite zip_with_length. lia. Qed.

Lemma map_seq_nth (f : nat -> R) (n i : nat) :
  (i < n)%nat -> nth i (map f (seq 0 n)) 0 = f i.
Proof.
  intros Hi.
  rewrite (nth_indep _ 0 (f 0%nat)) by (rewrite length_map, length_seq; lia).
  rewrite map_nth, seq_nth by lia. reflexivity.
Qed.

(** ** Reverb *)

Lemma reverb_ok (c : AudioConfig) (sr : Z) (n : nat) (cols : list (list R))
  (ir : list R) :
  impulse_response c sr = Ok ir ->
  Forall (fun x => x <> []) cols ->
  _apply_reverb c (Arr2 n cols) sr = Ok (Arr2 n (map (reverb_channel ir) cols)).
Proof.
  intros Hir Hne. unfold _apply_reverb. rewrite Hir. cbn [bind].
  rewrite (mapM_ok _ (fun x => map (conv_at ir x) (seq 0 (length x)))).
  - cbn [bind]. do 2 f_equal.
    clear Hne. induction cols as [| x cols IH]; simpl; [reflexivity |].
    rewrite IH. reflexivity.
  - intros x Hx. apply lfilter_ok.
    + eapply impulse_response_nonempty; eassumption.
    + rewrite Forall_forall in Hne. apply Hne; assumption.
Qed.

Lemma reverb_channel_length (ir x : list R) :
  length (reverb_channel ir x) = length x.
Proof.
  unfold reverb_channel. apply mix_length.
  rewrite length_map, length_seq. reflexivity.
Qed.

Lemma reverb_channel_nth (ir x : list R) (i : nat) :
  (i < length x)%nat ->
  nth i (reverb_channel ir x) 0 = nth i x 0 + conv_at ir x i * 0.5.
Proof.
  intros Hi. unfold reverb_channel.
  rewrite mix_nth by (try rewrite length_map, length_seq; lia).
  rewrite map_seq_nth by lia. reflexivity.
Qed.

Lemma conv_at_causal (b x x' : list R) (i : nat) :
  (forall j, (j <= i)%nat -> nth j x' 0 = nth j x 0) ->
  conv_at b x' i = conv_at b x i.
Proof.
  intros H. unfold conv_at. f_equal. apply map_ext. intros k.
  destruct (Nat.leb_spec k i); [| reflexivity].
  rewrite H by lia. reflexivity.
Qed.

Lemma lfilter_causal (b x : list R) (i : nat) :
  b <> [] -> x <> [] -> (i < length x)%nat -> causal_at (lfilter b) x i.
Proof.
  intros Hb Hx Hi x' Hlen Hagree.
  assert (Hx' : x' <> []) by (apply length_nonempty; lia).
  exists (map (conv_at b x) (seq 0 (length x))),
         (map (conv_at b x') (seq 0 (length x'))).
  split; [apply lfilter_ok; assumption |].
  split; [apply lfilter_ok; assumption |].
  rewrite !map_seq_nth by lia. apply conv_at_causal. assumption.
Qed.

Lemma reverb_of_channel_ok (ir x : list R) :
  ir <> [] -> x <> [] -> reverb_of_channel ir x (reverb_channel ir x).
Proof.
  intros Hir Hx. exists (map (conv_at ir x) (seq 0 (length x))).
  split; [apply lfilter_ok; assumption |].
  split; [apply reverb_channel_length |].
  intros i Hi. split.
  - rewrite reverb_channel_nth, map_seq_nth by assumption. ring.
  - apply lfilter_causal; assumption.
Qed.

Lemma two_taps_are_two_tap_vector (c : AudioConfig) (sr : Z) (m : nat) :
  delay_samples c sr = Z.of_nat (S (S m)) ->
  two_tap_vector c sr (1 :: repeat 0 m ++ [reverb_decay c]).
Proof.
  intros Hd. unfold two_tap_vector. rewrite Hd, Nat2Z.id.
  split.
  { cbn [length]. rewrite length_app, repeat_length. simpl. lia. }
  split; [reflexivity |].
  split.
  { replace (S (S m) - 1)%nat with (S m) by lia. cbn [nth].
    rewrite app_nth2, repeat_length, Nat.sub_diag by (rewrite repeat_length; lia).
    reflexivity. }
  intros k Hk. destruct k as [| k]; [lia |]. cbn [nth].
  rewrite app_nth1 by (rewrite repeat_length; lia).
  apply nth_repeat.
Qed.

(** C3, amended.  For a stereo buffer of at least one frame and a validated
    configuration with delay_samples >= 2, the reverb filters each channel on
    its own with the tap vector of length delay_samples whose first tap is 1,
    last tap is the decay and other taps are 0; the output is
    original[i] + 0.5 * reverb[i], where reverb[i] depends only on the inputs
    at the indices up to i; the output has the shape of the input. *)
Theorem C3_two_tap_reverb (c : AudioConfig) (sr : Z) (l r : list R) :
  validated c -> (2 <= delay_samples c sr)%Z ->
  length l = length r -> (1 <= length l)%nat ->
  two_tap_reverb c sr l r.
Proof.
  intros _ Hd Hlen Hl.
  assert (Hd' : delay_samples c sr =
                Z.of_nat (S (S (Z.to_nat (delay_samples c sr) - 2)))) by lia.
  set (m := (Z.to_nat (delay_samples c sr) - 2)%nat) in *.
  set (ir := 1 :: repeat 0 m ++ [reverb_decay c]).
  assert (Hir : impulse_response c sr = Ok ir)
    by (apply impulse_response_taps; assumption).
  assert (Hne : ir <> []) by discriminate.
  assert (Hln : l <> []) by (apply length_nonempty; lia).
  assert (Hrn : r <> []) by (apply length_nonempty; lia).
  exists ir, (reverb_channel ir l), (reverb_channel ir r).
  split; [exact Hir |].
  split; [apply two_taps_are_two_tap_vector; assumption |].
  split.
  { rewrite (reverb_ok c sr _ _ ir Hir); [reflexivity |].
    repeat constructor; assumption. }
  split; apply reverb_of_channel_ok; assumption.
Qed.

Lemma validated_short_delay : validated short_delay_config.
Proof.
  apply validate_ok_iff.
  solve_ranges.
Qed.

(** C3 as it is stated fails when delay_samples is 1: at 1000 Hz with a delay
    of 1 ms the only tap is the decay 0.3, so the first tap is not 1. *)
Lemma C3_counterexample_single_tap :
  validated short_delay_config /\
  delay_samples short_delay_config 1000 = 1%Z /\
  impulse_response short_delay_config 1000 = Ok [0.3] /\
  ~ two_tap_reverb short_delay_config 1000 [0.5] [0.5].
Proof.
  split; [exact validated_short_delay |].
  split; [reflexivity |].
  split; [reflexivity |].
  intros (ir & outl & outr & Hir & (_ & H0 & _) & _).
  rewrite impulse_response_one in Hir by reflexivity.
  inversion Hir; subst ir. simpl in H0. lra.
Qed.

(** C10.  When delay_samples is exactly 1 the impulse response is the single
    tap [reverb_decay]: the decay tap overwrites the direct tap.  The reverb
    then has no echo, and scales every sample by 1 + 0.5 * reverb_decay. *)
Theorem C10_single_tap_scales (c : AudioConfig) (sr : Z) (l r : list R) :
  validated c -> delay_samples c sr = 1%Z ->
  length l = length r -> (1 <= length l)%nat ->
  impulse_response c sr = Ok [reverb_decay c] /\
  _apply_reverb c (Arr2 (length l) [l; r]) sr =
    Ok (Arr2 (length l)
          [map (fun x => x * (1 + 0.5 * reverb_decay c)) l;
           map (fun x => x * (1 + 0.5 * reverb_decay c)) r]).
Proof.
  intros _ Hd Hlen Hl.
  assert (Hir : impulse_response c sr = Ok [reverb_decay c])
    by (apply impulse_response_one; assumption).
  assert (Hln : l <> []) by (apply length_nonempty; lia).
  assert (Hrn : r <> []) by (apply length_nonempty; lia).
  split; [exact Hir |].
  rewrite (reverb_ok c sr _ _ _ Hir) by (repeat constructor; assumption).
  assert (Hch : forall x, reverb_channel [reverb_decay c] x =
                          map (fun y => y * (1 + 0.5 * reverb_decay c)) x).
  { intros x. apply (nth_ext _ _ 0 0).
    - rewrite reverb_channel_length, length_map. reflexivity.
    - intros i Hi. rewrite reverb_channel_length in Hi.
      rewrite reverb_channel_nth, conv_at_one_tap by assumption.
      rewrite (nth_indep (map _ x) 0 (0 * (1 + 0.5 * reverb_decay c)))
        by (rewrite length_map; assumption).
      rewrite (map_nth (fun y => y * (1 + 0.5 * reverb_decay c))). ring. }
  cbn [map]. rewrite !Hch. reflexivity.
Qed.

(** C7.  When delay_samples is 0 the tap vector is empty and the reverb raises
    IndexError at the assignment of its first tap, whatever the buffer is. *)
Theorem C7_zero_taps_raise (c : AudioConfig) (a : ndarray R) (sr : Z) :
  delay_samples c sr = 0%Z ->
  _apply_reverb c a sr = Err (IndexError "index is out of bounds for axis 0").
Proof.
  intros Hd. unfold _apply_reverb.
  rewrite impulse_response_zero by assumption. reflexivity.
Qed.

(** ** Normalisation *)

Lemma fold_left_Rmax_ge (l : list R) (init : R) :
  init <= fold_left Rmax l init /\
  forall x, In x l -> x <= fold_left Rmax l init.
Proof.
  revert init. induction l as [| y l IH]; intros init; simpl.
  - split; [lra | intros x []].
  - destruct (IH (Rmax init y)) as [H1 H2].
    pose proof (Rmax_l init y). pose proof (Rmax_r init y).
    split; [lra |].
    intros x [Hx | Hx]; [subst; lra | apply H2; assumption].
Qed.

Lemma fold_left_Rmax_in (l : list R) (init : R) :
  fold_left Rmax l init = init \/ In (fold_left Rmax l init) l.
Proof.
  revert init. induction l as [| y l IH]; intros init; simpl; [left; reflexivity |].
  destruct (IH (Rmax init y)) as [H | H]; [| right; right; assumption].
  rewrite H. unfold Rmax. destruct (Rle_dec init y); [right; left | left]; reflexivity.
Qed.

(** The maximum of a nonempty sequence is one of its values and bounds them
    all; these two facts determine it. *)
Lemma fold_left_Rmax_unique (l : list R) (init v : R) :
  In v (init :: l) -> (forall x, In x (init :: l) -> x <= v) ->
  fold_left Rmax l init = v.
Proof.
  intros Hin Hle.
  destruct (fold_left_Rmax_ge l init) as [G1 G2].
  apply Rle_antisym.
  - destruct (fold_left_Rmax_in l init) as [H | H].
    + rewrite H. apply Hle. left; reflexivity.
    + apply Hle. right; assumption.
  - destruct Hin as [H | H]; [subst; assumption | apply G2; assumption].
Qed.

Lemma elements_amap {A B : Type} (f : A -> B) (a : ndarray A) :
  elements (amap f a) = map f (elements a).
Proof.
  destruct a as [v | n cols]; simpl; [reflexivity |].
  rewrite concat_map. reflexivity.
Qed.

Lemma amap_amap {A B C : Type} (f : A -> B) (g : B -> C) (a : ndarray A) :
  amap g (amap f a) = amap (fun x => g (f x)) a.
Proof.
  destruct a as [v | n cols]; simpl; f_equal.
  - apply map_map.
  - rewrite map_map. apply map_ext. intros col. apply map_map.
Qed.

Lemma amap_ext_in {A B : Type} (f g : A -> B) (a : ndarray A) :
  (forall x, In x (elements a) -> f x = g x) -> amap f a = amap g a.
Proof.
  destruct a as [v | n cols]; simpl; intros H; f_equal.
  - apply map_ext_in; assumption.
  - apply map_ext_in. intros col Hcol. apply map_ext_in. intros x Hx.
    apply H. apply in_concat. exists col. split; assumption.
Qed.

Lemma np_max_abs_spec (a : ndarray R) (peak : R) :
  np_max_abs a = Ok peak ->
  In peak (map Rabs (elements a)) /\
  forall x, In x (elements a) -> Rabs x <= peak.
Proof.
  unfold np_max_abs. destruct (elements a) as [| x xs]; [discriminate |].
  intros H. inversion H; subst peak; clear H.
  destruct (fold_left_Rmax_ge (map Rabs xs) (Rabs x)) as [G1 G2].
  split.
  - destruct (fold_left_Rmax_in (map Rabs xs) (Rabs x)) as [H | H].
    + rewrite H. left; reflexivity.
    + right; assumption.
  - intros y [Hy | Hy]; [subst; assumption |].
    apply G2. apply in_map. assumption.
Qed.

Lemma np_max_abs_unique (a : ndarray R) (v : R) :
  In v (map Rabs (elements a)) ->
  (forall x, In x (elements a) -> Rabs x <= v) ->
  np_max_abs a = Ok v.
Proof.
  unfold np_max_abs. destruct (elements a) as [| x xs]; [intros [] |].
  intros Hin Hle. f_equal. apply fold_left_Rmax_unique.
  - exact Hin.
  - intros y Hy. change (In y (map Rabs (x :: xs))) in Hy.
    apply in_map_iff in Hy. destruct Hy as (z & <- & Hz). apply Hle. assumption.
Qed.

Lemma np_max_abs_defined (a : ndarray R) :
  elements a <> [] -> exists peak, np_max_abs a = Ok peak.
Proof.
  unfold np_max_abs. destruct (elements a); [contradiction | eexists; reflexivity].
Qed.

Lemma np_true_divide_finite (x y : R) :
  y <> 0 -> np_true_divide x y = Fin (x / y).
Proof.
  intros H. unfold np_true_divide.
  destruct (Req_dec_T y 0); [contradiction | reflexivity].
Qed.

Lemma np_true_divide_nan : np_true_divide 0 0 = NaN.
Proof.
  unfold np_true_divide.
  destruct (Req_dec_T 0 0) as [_ | H]; [reflexivity | contradiction H; reflexivity].
Qed.

(** A signal with a sample that is not zero is scaled to the peak 1. *)
Lemma normalize_peak (a : ndarray R) :
  Exists (fun x => x <> 0) (elements a) ->
  exists out,
    normalize a = Ok (amap Fin out) /\
    np_max_abs out = Ok 1 /\
    Forall (fun y => -1 <= y <= 1) (elements out).
Proof.
  intros Hex. apply Exists_exists in Hex. destruct Hex as (x0 & Hx0 & Hnz).
  destruct (np_max_abs_defined a) as [peak Hpeak].
  { intros E. rewrite E in Hx0. destruct Hx0. }
  destruct (np_max_abs_spec a peak Hpeak) as [Hin Hle].
  assert (Hpos : 0 < peak).
  { pose proof (Hle x0 Hx0). pose proof (Rabs_pos_lt x0 Hnz). lra. }
  assert (Habs : forall x, Rabs (x / peak) = Rabs x / peak).
  { intros x. unfold Rdiv. rewrite Rabs_mult, (Rabs_pos_eq (/ peak)).
    - reflexivity.
    - left. apply Rinv_0_lt_compat. assumption. }
  exists (amap (fun x => x / peak) a).
  split.
  { unfold normalize. rewrite Hpeak. cbn [bind]. rewrite amap_amap. f_equal.
    apply amap_ext_in. intros x _. apply np_true_divide_finite. lra. }
  assert (Hbound : forall y, In y (elements (amap (fun x => x / peak) a)) ->
                             Rabs y <= 1).
  { intros y Hy. rewrite elements_amap in Hy. apply in_map_iff in Hy.
    destruct Hy as (x & <- & Hx). rewrite Habs.
    apply (Rmult_le_reg_r peak); [assumption |].
    unfold Rdiv. rewrite Rmult_assoc, Rinv_l by lra.
    pose proof (Hle x Hx). lra. }
  split.
  - apply np_max_abs_unique; [| exact Hbound].
    rewrite elements_amap, map_map.
    apply in_map_iff in Hin. destruct Hin as (x & Hx & Hxin).
    apply in_map_iff. exists x. split; [| assumption].
    rewrite Habs, Hx. unfold Rdiv. apply Rinv_r. lra.
  - apply Forall_forall. intros y Hy. apply Hbound in Hy.
    unfold Rabs in Hy. destruct (Rcase_abs y); lra.
Qed.

(** A silent signal with at least one sample is turned into nan: its peak
    is 0 and every sample is 0 / 0. *)
Lemma normalize_silent (a : ndarray R) :
  elements a <> [] -> Forall (fun x => x = 0) (elements a) ->
  normalize a = Ok (amap (fun _ => NaN) a).
Proof.
  intros Hne Hz. rewrite Forall_forall in Hz.
  assert (Hpeak : np_max_abs a = Ok 0).
  { apply np_max_abs_unique.
    - destruct (elements a) as [| x xs] eqn:E; [contradiction |].
      left. rewrite (Hz x) by (left; reflexivity). apply Rabs_R0.
    - intros x Hx. rewrite (Hz x Hx), Rabs_R0. lra. }
  unfold normalize. rewrite Hpeak. cbn [bind]. f_equal.
  apply amap_ext_in. intros x Hx. rewrite (Hz x Hx). apply np_true_divide_nan.
Qed.

(** C6.  When the signal after the reverb has a sample that is not zero, the
    normalised output is finite, its largest absolute sample is exactly 1,
    and every sample is in [-1, 1]. *)
Theorem C6_peak_is_one (c : AudioConfig) (a post : ndarray R) (sr : Z) :
  (a1 <- _apply_panning c a sr ;; _apply_reverb c a1 sr) = Ok post ->
  Exists (fun x => x <> 0) (elements post) ->
  exists out,
    apply_effects c a sr = Ok (amap Fin out) /\
    np_max_abs out = Ok 1 /\
    Forall (fun y => -1 <= y <= 1) (elements out).
Proof.
  intros Hpost Hex. unfold apply_effects.
  destruct (_apply_panning c a sr) as [a1 | e]; [| discriminate].
  cbn [bind] in *. rewrite Hpost. cbn [bind].
  apply normalize_peak. assumption.
Qed.

(** ** Silence *)

Lemma silent_nth (l : list R) (i : nat) : silent l -> nth i l 0 = 0.
Proof.
  intros H. destruct (Nat.lt_ge_cases i (length l)) as [Hi | Hi].
  - unfold silent in H. rewrite Forall_forall in H. apply H. apply nth_In. assumption.
  - apply nth_overflow. assumption.
Qed.

Lemma silent_of_nth (l : list R) :
  (forall i, (i < length l)%nat -> nth i l 0 = 0) -> silent l.
Proof.
  intros H. apply Forall_forall. intros x Hx.
  apply (In_nth _ _ 0) in Hx. destruct Hx as (i & Hi & <-). apply H. assumption.
Qed.

Lemma silent_zip_mult (x ys : list R) : silent x -> silent (zip_with Rmult x ys).
Proof.
  intros H. revert ys. induction H as [| x0 x Hx0 _ IH]; intros [| y ys]; simpl;
    try constructor.
  - subst. ring.
  - apply IH.
Qed.

Lemma silent_conv_at (b x : list R) (i : nat) : silent x -> conv_at b x i = 0.
Proof.
  intros H. unfold conv_at. apply Rsum_map_zero. intros k _.
  destruct (k <=? i)%nat; [| reflexivity].
  rewrite (silent_nth x) by assumption. ring.
Qed.

Lemma silent_reverb_channel (ir x : list R) :
  silent x -> silent (reverb_channel ir x).
Proof.
  intros H. apply silent_of_nth. intros i Hi.
  rewrite reverb_channel_length in Hi.
  rewrite reverb_channel_nth by assumption.
  rewrite (silent_conv_at ir x i H), (silent_nth x i H). ring.
Qed.

Lemma map_const {A B : Type} (b : B) (l : list A) :
  map (fun _ => b) l = repeat b (length l).
Proof. induction l as [| x l IH]; simpl; [reflexivity | rewrite IH; reflexivity]. Qed.

Lemma impulse_response_defined (c : AudioConfig) (sr : Z) :
  (1 <= delay_samples c sr)%Z -> exists ir, impulse_response c sr = Ok ir.
Proof.
  intros Hd. destruct (Z.eq_dec (delay_samples c sr) 1) as [H1 | H1].
  - eexists. apply impulse_response_one. assumption.
  - eexists.
    apply (impulse_response_taps c sr (Z.to_nat (delay_samples c sr) - 2)). lia.
Qed.

Lemma impulse_response_error (c : AudioConfig) (sr : Z) (e : exn) :
  impulse_response c sr = Err e -> builtin_exn e.
Proof.
  intros H.
  destruct (Z.lt_trichotomy (delay_samples c sr) 0) as [Hn | [Hz | Hp]].
  - rewrite impulse_response_negative in H by assumption.
    inversion H; subst. left; reflexivity.
  - rewrite impulse_response_zero in H by assumption.
    inversion H; subst. right; left; reflexivity.
  - destruct (impulse_response_defined c sr) as [ir Hir]; [lia |].
    rewrite Hir in H. discriminate.
Qed.

(** C1.  A silent stereo buffer of at least one frame is not returned
    unchanged: after panning and reverb the peak is 0, the normalisation
    divides 0 by 0, and every sample of the output is nan. *)
Theorem C1_silence_becomes_nan (c : AudioConfig) (sr : Z) (l r : list R) :
  sr <> 0%Z -> (1 <= delay_samples c sr)%Z ->
  length l = length r -> (1 <= length l)%nat ->
  silent l -> silent r ->
  exists post,
    (a1 <- _apply_panning c (Arr2 (length l) [l; r]) sr ;;
     _apply_reverb c a1 sr) = Ok post /\
    np_max_abs post = Ok 0 /\
    apply_effects c (Arr2 (length l) [l; r]) sr =
      Ok (Arr2 (length l) [repeat NaN (length l); repeat NaN (length l)]).
Proof.
  intros Hsr Hd Hlen Hl Hsl Hsr'.
  set (a := Arr2 (length l) [l; r]).
  set (p := pan_curve c a sr).
  assert (Hp : length p = length l) by apply (pan_curve_len c a sr).
  assert (Hpan : _apply_panning c a sr =
                 Ok (Arr2 (length l) [pan_left p l; pan_right p r])).
  { rewrite (panning_ok c a sr l r) by auto.
    unfold stack2. fold p. rewrite pan_left_length by assumption. reflexivity. }
  destruct (impulse_response_defined c sr Hd) as [ir Hir].
  assert (Hll : length (pan_left p l) = length l)
    by (apply pan_left_length; assumption).
  assert (Hlr : length (pan_right p r) = length l)
    by (rewrite pan_right_length; lia).
  assert (Hrev : _apply_reverb c (Arr2 (length l) [pan_left p l; pan_right p r]) sr =
                 Ok (Arr2 (length l) [reverb_channel ir (pan_left p l);
                                      reverb_channel ir (pan_right p r)])).
  { rewrite (reverb_ok c sr _ _ ir Hir); [reflexivity |].
    repeat constructor; apply length_nonempty; lia. }
  set (post := Arr2 (length l) [reverb_channel ir (pan_left p l);
                                reverb_channel ir (pan_right p r)]) in *.
  assert (Hsil : Forall (fun x => x = 0) (elements post)).
  { unfold post. cbn [elements concat]. rewrite app_nil_r. apply Forall_app. split.
    - apply silent_reverb_channel, silent_zip_mult, Hsl.
    - apply silent_reverb_channel, silent_zip_mult, Hsr'. }
  assert (Hne : elements post <> []).
  { unfold post. cbn [elements concat]. intros E. apply app_eq_nil in E.
    destruct E as [E _]. apply (f_equal (@length R)) in E.
    rewrite reverb_channel_length, Hll in E. simpl in E. lia. }
  pose proof (normalize_silent post Hne Hsil) as Hnorm.
  exists post. split; [rewrite Hpan; cbn [bind]; exact Hrev |].
  split.
  { apply np_max_abs_unique.
    - destruct (elements post) as [| x xs] eqn:E; [contradiction |].
      left. inversion Hsil; subst. apply Rabs_R0.
    - intros x Hx. rewrite Forall_forall in Hsil.
      rewrite (Hsil x Hx), Rabs_R0. lra. }
  unfold apply_effects. rewrite Hpan. cbn [bind]. rewrite Hrev. cbn [bind].
  rewrite Hnorm. unfold post. cbn [amap map].
  rewrite !map_const, !reverb_channel_length, Hll, Hlr. reflexivity.
Qed.

(** ** The empty buffer *)

Lemma panning_of_no_frame (c : AudioConfig) (a a1 : ndarray R) (sr : Z) :
  len a = 0%nat -> _apply_panning c a sr = Ok a1 -> a1 = Arr2 0 [[]; []].
Proof.
  intros Hlen. unfold _apply_panning, py_truediv. rewrite Hlen.
  destruct (sr =? 0)%Z; [discriminate |]. cbn [bind linspace pan_curve_of map].
  destruct a as [v | n cols].
  - destruct v; [| discriminate]. simpl. intros H; inversion H; reflexivity.
  - destruct cols as [| c0 [| c1 cols]]; simpl; try discriminate.
    rewrite !zip_with_nil_r. intros H; inversion H; reflexivity.
Qed.

Lemma panning_error (c : AudioConfig) (a : ndarray R) (sr : Z) (e : exn) :
  _apply_panning c a sr = Err e -> builtin_exn e.
Proof.
  unfold _apply_panning, py_truediv.
  destruct (sr =? 0)%Z.
  { intros H; inversion H; subst. right; right; reflexivity. }
  cbn [bind].
  destruct a as [v | n [| c0 [| c1 cols]]]; simpl; intros H; inversion H; subst;
    right; left; reflexivity.
Qed.

Lemma reverb_of_no_frame (c : AudioConfig) (sr : Z) :
  exists e, _apply_reverb c (Arr2 0 [[]; []]) sr = Err e /\ builtin_exn e.
Proof.
  unfold _apply_reverb.
  destruct (impulse_response c sr) as [ir | e] eqn:Hir.
  - destruct (lfilter_empty ir) as [msg Hmsg].
    exists (ValueError msg). cbn [bind mapM]. rewrite Hmsg.
    split; [reflexivity | left; reflexivity].
  - exists e. split; [reflexivity |]. eapply impulse_response_error; eassumption.
Qed.

(** C9, amended.  For a buffer of zero frames the conversion fails with one of
    the exceptions of Python and numpy (ValueError, IndexError or
    ZeroDivisionError) and returns no buffer. *)
Theorem C9_no_frame_raises_builtin (c : AudioConfig) (a : ndarray R) (sr : Z) :
  len a = 0%nat ->
  exists e, apply_effects c a sr = Err e /\ builtin_exn e.
Proof.
  intros Hlen. unfold apply_effects.
  destruct (_apply_panning c a sr) as [a1 | e] eqn:Hpan.
  - apply (panning_of_no_frame c a a1 sr Hlen) in Hpan. subst a1. cbn [bind].
    destruct (reverb_of_no_frame c sr) as (e & He & Hb).
    exists e. rewrite He. split; [reflexivity | assumption].
  - exists e. split; [reflexivity |]. eapply panning_error; eassumption.
Qed.

(** C9 as it is stated fails: the empty stereo buffer under the default
    configuration at 8000 Hz raises ValueError, not EmptyBuffer. *)
Lemma C9_counterexample_empty_stereo :
  raises "ValueError" (apply_effects default_config (Arr2 0 [[]; []]) 8000) /\
  ~ raises "EmptyBuffer" (apply_effects default_config (Arr2 0 [[]; []]) 8000).
Proof.
  assert (H : apply_effects default_config (Arr2 0 [[]; []]) 8000 =
              Err (ValueError "v cannot be empty")).
  { unfold apply_effects.
    rewrite (panning_ok default_config _ 8000 [] []) by (try reflexivity; lia).
    cbn [bind stack2 pan_left pan_right zip_with length].
    unfold _apply_reverb.
    rewrite (impulse_response_taps default_config 8000 398) by reflexivity.
    reflexivity. }
  rewrite H. split.
  - eexists. reflexivity.
  - intros [msg Hmsg]. discriminate.
Qed.

(** ** The scenario: one second of a constant mono signal at 8000 Hz *)

Lemma reverb_channel_two_taps (m : nat) (g : R) (x : list R) (i : nat) :
  (i < length x)%nat ->
  nth i (reverb_channel (1 :: repeat 0 m ++ [g]) x) 0 =
  nth i x 0 +
  (nth i x 0 + (if (S m <=? i)%nat then g * nth (i - S m) x 0 else 0)) * 0.5.
Proof.
  intros Hi. rewrite reverb_channel_nth, conv_at_two_taps by assumption.
  reflexivity.
Qed.

(** The pan curve starts at 0. *)
Lemma pan_curve_first (c : AudioConfig) (a : ndarray R) (sr : Z) :
  (1 <= len a)%nat -> nth 0 (pan_curve c a sr) 0 = 0.
Proof.
  intros Hlen. unfold pan_curve.
  assert (Ht : nth 0 (time_axis a sr) 0 = 0).
  { destruct (Nat.eq_dec (len a) 1) as [E | E].
    - rewrite time_axis_single by assumption. reflexivity.
    - rewrite time_axis_nth by lia. simpl INR. unfold Rdiv. ring. }
  rewrite pan_curve_nth by (unfold time_axis; rewrite linspace_length; lia).
  rewrite Ht, Rmult_0_r, sin_0. ring.
Qed.

Lemma echo_onset (N : nat) :
  (400 <= N)%nat ->
  exists l r l' r',
    _apply_panning default_config (Arr1 (repeat 0.5 N)) 8000 =
      Ok (Arr2 N [l; r]) /\
    _apply_reverb default_config (Arr2 N [l; r]) 8000 = Ok (Arr2 N [l'; r']) /\
    (forall i, (i < 399)%nat ->
       nth i l' 0 = 1.5 * nth i l 0 /\ nth i r' 0 = 1.5 * nth i r 0) /\
    nth 399 l' 0 = 1.5 * nth 399 l 0 + 0.075 /\
    nth 399 r' 0 = 1.5 * nth 399 r 0 + 0.075 /\
    exists out,
      apply_effects default_config (Arr1 (repeat 0.5 N)) 8000 =
        Ok (amap Fin out) /\
      np_max_abs out = Ok 1.
Proof.
  intros HN.
  set (v := repeat 0.5 N).
  assert (Hv : length v = N) by apply repeat_length.
  set (p := pan_curve default_config (Arr1 v) 8000).
  assert (Hp : length p = N)
    by (unfold p; rewrite pan_curve_len; exact Hv).
  assert (Hp0 : nth 0 p 0 = 0)
    by (apply pan_curve_first; simpl; lia).
  assert (Hv0 : nth 0 v 0 = 0.5) by (unfold v; apply nth_repeat_lt; lia).
  set (l := pan_left p v). set (r := pan_right p v).
  assert (Hl : length l = N) by (unfold l; rewrite pan_left_length; lia).
  assert (Hr : length r = N) by (unfold r; rewrite pan_right_length; lia).
  assert (Hl0 : nth 0 l 0 = 0.5).
  { unfold l. rewrite pan_left_nth by lia. rewrite Hp0, Hv0. lra. }
  assert (Hr0 : nth 0 r 0 = 0.5).
  { unfold r. rewrite pan_right_nth by lia. rewrite Hp0, Hv0. lra. }
  assert (Hpan : _apply_panning default_config (Arr1 v) 8000 = Ok (Arr2 N [l; r])).
  { destruct (panning_mono_1d default_config v 8000) as [H _]; [lia |].
    rewrite H, Hv. reflexivity. }
  set (ir := 1 :: repeat 0 398 ++ [reverb_decay default_config]).
  assert (Hir : impulse_response default_config 8000 = Ok ir)
    by (apply impulse_response_taps; reflexivity).
  assert (Hrev : _apply_reverb default_config (Arr2 N [l; r]) 8000 =
                 Ok (Arr2 N [reverb_channel ir l; reverb_channel ir r])).
  { rewrite (reverb_ok _ _ _ _ ir Hir); [reflexivity |].
    repeat constructor; apply length_nonempty; lia. }
  assert (Hbefore : forall x i, length x = N -> (i < 399)%nat ->
                      nth i (reverb_channel ir x) 0 = 1.5 * nth i x 0).
  { intros x i Hx Hi. unfold ir. rewrite reverb_channel_two_taps by lia.
    destruct (Nat.leb_spec 399 i); [lia | lra]. }
  assert (Hat : forall x, length x = N -> nth 0 x 0 = 0.5 ->
                  nth 399 (reverb_channel ir x) 0 = 1.5 * nth 399 x 0 + 0.075).
  { intros x Hx Hx0. unfold ir. rewrite reverb_channel_two_taps by lia.
    destruct (Nat.leb_spec 399 399); [| lia].
    rewrite Nat.sub_diag, Hx0. simpl reverb_decay. lra. }
  exists l, r, (reverb_channel ir l), (reverb_channel ir r).
  split; [exact Hpan |]. split; [exact Hrev |].
  split; [intros i Hi; split; apply Hbefore; assumption |].
  split; [apply Hat; assumption |]. split; [apply Hat; assumption |].
  destruct (normalize_peak (Arr2 N [reverb_channel ir l; reverb_channel ir r]))
    as (out & Hout & Hpeak & _).
  { apply Exists_exists. exists (nth 0 (reverb_channel ir l) 0). split.
    - cbn [elements concat]. apply in_or_app. left. apply nth_In.
      rewrite reverb_channel_length. lia.
    - rewrite Hbefore by (assumption || lia). rewrite Hl0. lra. }
  exists out. split; [| exact Hpeak].
  unfold apply_effects. fold v. rewrite Hpan. cbn [bind]. rewrite Hrev. exact Hout.
Qed.

(** C8, amended.  In the scenario delay_samples is 400 and the echo appears
    at the sample of index 399, the index of the last tap, in both channels:
    up to index 398 both channels are 1.5 times the panned signal, and at
    index 399 they exceed it by 0.5 * 0.3 * 0.5 = 0.075, the echo of the
    first sample.  After the normalisation the peak is 1. *)
Theorem C8_echo_starts_at_399 :
  delay_samples default_config 8000 = 400%Z /\
  exists l r l' r',
    _apply_panning default_config scenario_input 8000 =
      Ok (Arr2 scenario_frames [l; r]) /\
    _apply_reverb default_config (Arr2 scenario_frames [l; r]) 8000 =
      Ok (Arr2 scenario_frames [l'; r']) /\
    (forall i, (i < 399)%nat ->
       nth i l' 0 = 1.5 * nth i l 0 /\ nth i r' 0 = 1.5 * nth i r 0) /\
    nth 399 l' 0 = 1.5 * nth 399 l 0 + 0.075 /\
    nth 399 r' 0 = 1.5 * nth 399 r 0 + 0.075 /\
    exists out,
      apply_effects default_config scenario_input 8000 = Ok (amap Fin out) /\
      np_max_abs out = Ok 1.
Proof.
  split; [reflexivity |].
  apply echo_onset. unfold scenario_frames. lia.
Qed.

(** C8 as it is stated fails: in the scenario the echo does not appear at
    index 400, it is already there at index 399. *)
Lemma C8_counterexample_not_at_400 : ~ scenario_echo_at 400.
Proof.
  intros (l & r & l' & r' & Hpan & Hrev & [Hbefore _] & _).
  destruct (echo_onset scenario_frames) as
    (l0 & r0 & l0' & r0' & Hpan0 & Hrev0 & _ & Hat & _).
  { unfold scenario_frames. lia. }
  unfold scenario_input in Hpan. rewrite Hpan0 in Hpan.
  inversion Hpan; subst l0 r0.
  rewrite Hrev0 in Hrev. inversion Hrev; subst l0' r0'.
  assert (H399 : (399 < 400)%nat) by lia.
  specialize (Hbefore 399%nat H399). rewrite Hat in Hbefore. lra.
Qed.

(** ** Instances

    Each property that has premises, applied to a concrete input. *)

Lemma C5_validate_config_witness : _validate_config default_config = Ok tt.
Proof.
  apply (proj2 (proj1 (C5_validate_config default_config))).
  solve_ranges.
Defined.

Lemma C4_panning_formula_witness :
  exists l' r',
    _apply_panning default_config (Arr2 2 [[0.5; 0.5]; [0.25; 0.25]]) 8000 =
      Ok (Arr2 2 [l'; r']) /\
    length l' = 2%nat /\ length r' = 2%nat.
Proof.
  destruct (C4_panning_formula default_config
              (Arr2 2 [[0.5; 0.5]; [0.25; 0.25]]) 8000 [0.5; 0.5] [0.25; 0.25])
    as (_ & _ & _ & _ & _ & _ & _ & _ & l' & r' & H1 & H2 & H3 & _).
  - exact validated_default.
  - lia.
  - simpl. repeat constructor.
  - simpl. lia.
  - reflexivity.
  - exists l', r'. repeat split; assumption.
Defined.

Lemma C3_two_tap_reverb_witness :
  two_tap_reverb default_config 8000 [0.5; 0.5] [0.25; 0.25].
Proof.
  apply C3_two_tap_reverb.
  - exact validated_default.
  - change (delay_samples default_config 8000) with 400%Z; lia.
  - reflexivity.
  - simpl; lia.
Defined.

Lemma C10_single_tap_scales_witness :
  impulse_response short_delay_config 1000 = Ok [0.3] /\
  _apply_reverb short_delay_config (Arr2 1 [[0.5]; [0.25]]) 1000 =
    Ok (Arr2 1 [[0.5 * (1 + 0.5 * 0.3)]; [0.25 * (1 + 0.5 * 0.3)]]).
Proof.
  apply (C10_single_tap_scales short_delay_config 1000 [0.5] [0.25]).
  - exact validated_short_delay.
  - reflexivity.
  - reflexivity.
  - simpl; lia.
Defined.

Lemma C7_zero_taps_raise_witness :
  validated short_delay_config /\
  delay_samples short_delay_config 999 = 0%Z /\
  _apply_reverb short_delay_config (Arr2 1 [[0.5]; [0.5]]) 999 =
    Err (IndexError "index is out of bounds for axis 0").
Proof.
  split; [exact validated_short_delay |].
  split; [reflexivity |].
  apply C7_zero_taps_raise. reflexivity.
Defined.

Lemma short_delay_example :
  exists post,
    (a1 <- _apply_panning short_delay_config (Arr2 1 [[0.5]; [0.5]]) 1000 ;;
     _apply_reverb short_delay_config a1 1000) = Ok post /\
    Exists (fun x => x <> 0) (elements post).
Proof.
  set (a := Arr2 1 [[0.5]; [0.5]]).
  set (p := pan_curve short_delay_config a 1000).
  assert (Hp : length p = 1%nat) by apply (pan_curve_len short_delay_config a 1000).
  assert (Hp0 : nth 0 p 0 = 0) by (apply pan_curve_first; simpl; lia).
  set (l := pan_left p [0.5]). set (r := pan_right p [0.5]).
  assert (Hl : length l = 1%nat) by (unfold l; rewrite pan_left_length; simpl; lia).
  assert (Hr : length r = 1%nat) by (unfold r; rewrite pan_right_length; simpl; lia).
  exists (Arr2 1 [reverb_channel [0.3] l; reverb_channel [0.3] r]). split.
  - rewrite (panning_ok short_delay_config a 1000 [0.5] [0.5])
      by (try reflexivity; lia).
    cbn [bind]. unfold stack2. fold p. fold l. fold r. rewrite Hl.
    apply (reverb_ok short_delay_config 1000 1 [l; r] [0.3]); [reflexivity |].
    repeat constructor; apply length_nonempty; lia.
  - apply Exists_exists. exists (nth 0 (reverb_channel [0.3] l) 0). split.
    + cbn [elements concat]. apply in_or_app. left. apply nth_In.
      rewrite reverb_channel_length. lia.
    + rewrite reverb_channel_nth, conv_at_one_tap by lia.
      unfold l. rewrite pan_left_nth by (simpl; lia). rewrite Hp0. simpl nth. lra.
Qed.

Lemma C6_peak_is_one_witness :
  exists out,
    apply_effects short_delay_config (Arr2 1 [[0.5]; [0.5]]) 1000 =
      Ok (amap Fin out) /\
    np_max_abs out = Ok 1 /\
    Forall (fun y => -1 <= y <= 1) (elements out).
Proof.
  destruct short_delay_example as (post & H1 & H2).
  exact (C6_peak_is_one short_delay_config (Arr2 1 [[0.5]; [0.5]]) post 1000 H1 H2).
Defined.

Lemma C1_silence_becomes_nan_witness :
  apply_effects default_config (Arr2 1 [[0]; [0]]) 8000 =
    Ok (Arr2 1 [[NaN]; [NaN]]).
Proof.
  destruct (C1_silence_becomes_nan default_config 8000 [0] [0])
    as (post & _ & _ & H).
  - lia.
  - change (delay_samples default_config 8000) with 400%Z; lia.
  - reflexivity.
  - simpl; lia.
  - repeat constructor.
  - repeat constructor.
  - exact H.
Defined.

Lemma C9_no_frame_raises_builtin_witness :
  exists e, apply_effects default_config (Arr1 []) 8000 = Err e /\ builtin_exn e.
Proof.
  apply C9_no_frame_raises_builtin. reflexivity.
Defined.

(** * Further properties of the conversion *)

(** ** What the panning returns, and when *)

Lemma panning_ok_inv (c : AudioConfig) (a out : ndarray R) (sr : Z) :
  _apply_panning c a sr = Ok out ->
  sr <> 0%Z /\ exists l r, stereo_view a = Some (l, r).
Proof.
  intros H. unfold _apply_panning, py_truediv in H.
  destruct (Z.eqb_spec sr 0) as [E | E]; [discriminate |].
  split; [assumption |].
  destruct a as [v | n [| c0 [| c1 cols]]]; simpl in H; try discriminate;
    simpl; eauto.
Qed.

(** X1.  The panning returns exactly when the sample rate is not zero and the
    buffer is one-dimensional or has at least two columns; what it returns is
    always a stereo buffer with the frame count of the input, whatever the
    number of columns of the input was. *)
Theorem panning_returns_stereo (c : AudioConfig) (a : ndarray R) (sr : Z) :
  wf a ->
  (sr <> 0%Z /\ exists l r, stereo_view a = Some (l, r)) <->
  (exists l' r', _apply_panning c a sr = Ok (Arr2 (len a) [l'; r']) /\
                 length l' = len a /\ length r' = len a).
Proof.
  intros Hwf. split.
  - intros (Hsr & l & r & Hv).
    destruct (stereo_view_length a l r Hwf Hv) as [Hl Hr].
    assert (Hp : length (pan_curve c a sr) = len a) by apply pan_curve_len.
    exists (pan_left (pan_curve c a sr) l), (pan_right (pan_curve c a sr) r).
    rewrite (panning_ok c a sr l r Hsr Hv). unfold stack2.
    rewrite pan_left_length, pan_right_length by lia.
    rewrite Hl, Hr. repeat split; reflexivity.
  - intros (l' & r' & H & _). eapply panning_ok_inv. eassumption.
Qed.

(** X2.  The pan curve starts at zero, so the first frame of a buffer passes
    through the panning unchanged in both channels. *)
Theorem panning_keeps_first_frame (c : AudioConfig) (a : ndarray R) (sr : Z)
  (l r : list R) :
  wf a -> sr <> 0%Z -> (1 <= len a)%nat -> stereo_view a = Some (l, r) ->
  exists l' r',
    _apply_panning c a sr = Ok (Arr2 (len a) [l'; r']) /\
    nth 0 l' 0 = nth 0 l 0 /\ nth 0 r' 0 = nth 0 r 0.
Proof.
  intros Hwf Hsr Hlen Hv.
  destruct (stereo_view_length a l r Hwf Hv) as [Hl Hr].
  assert (Hp : length (pan_curve c a sr) = len a) by apply pan_curve_len.
  exists (pan_left (pan_curve c a sr) l), (pan_right (pan_curve c a sr) r).
  split.
  { rewrite (panning_ok c a sr l r Hsr Hv). unfold stack2.
    rewrite pan_left_length by lia. rewrite Hl. reflexivity. }
  rewrite pan_left_nth, pan_right_nth by lia.
  rewrite pan_curve_first by assumption. split; ring.
Qed.

Lemma zip_with_ext_l {A B : Type} (f : A -> B -> A) (xs : list A) (ys : list B) :
  length xs = length ys ->
  (forall x y, In y ys -> f x y = x) -> zip_with f xs ys = xs.
Proof.
  revert ys. induction xs as [| x xs IH]; intros [| y ys] Hlen H; simpl in *;
    try discriminate; [reflexivity |].
  rewrite H by (left; reflexivity).
  rewrite IH; [reflexivity | lia | intros; apply H; right; assumption].
Qed.

(** X3.  With depth 0 the pan curve is flat and the panning returns a stereo
    buffer as it is. *)
Theorem panning_depth_zero_is_identity (c : AudioConfig) (l r : list R)
  (sr : Z) :
  depth c = 0 -> sr <> 0%Z -> length l = length r ->
  _apply_panning c (Arr2 (length l) [l; r]) sr = Ok (Arr2 (length l) [l; r]).
Proof.
  intros Hd Hsr Hlen.
  set (a := Arr2 (length l) [l; r]).
  assert (Hp : length (pan_curve c a sr) = length l) by apply (pan_curve_len c a sr).
  assert (Hflat : forall p, In p (pan_curve c a sr) -> p = 0).
  { intros p Hp0. unfold pan_curve, pan_curve_of in Hp0.
    apply in_map_iff in Hp0. destruct Hp0 as (t & <- & _). rewrite Hd. ring. }
  rewrite (panning_ok c a sr l r Hsr eq_refl). unfold stack2, pan_left, pan_right.
  rewrite !zip_with_ext_l.
  - reflexivity.
  - rewrite length_map. lia.
  - intros x y Hy. apply in_map_iff in Hy. destruct Hy as (p & <- & Hin).
    rewrite (Hflat p Hin). ring.
  - rewrite length_map. lia.
  - intros x y Hy. apply in_map_iff in Hy. destruct Hy as (p & <- & Hin).
    rewrite (Hflat p Hin). ring.
Qed.

(** X4.  Under a validated configuration the panning multiplies the two
    samples of a frame by gains that add up to 2 and lie between 1 - depth
    and 1 + depth: no sample changes sign, none grows beyond twice its
    value. *)
Theorem panning_gains (c : AudioConfig) (a : ndarray R) (sr : Z)
  (l r : list R) :
  validated c -> wf a -> sr <> 0%Z -> stereo_view a = Some (l, r) ->
  exists l' r',
    _apply_panning c a sr = Ok (Arr2 (len a) [l'; r']) /\
    forall i, (i < len a)%nat ->
      exists g, 1 - depth c <= g <= 1 + depth c /\ 0 <= g <= 2 /\
                nth i l' 0 = nth i l 0 * g /\
                nth i r' 0 = nth i r 0 * (2 - g).
Proof.
  intros Hval Hwf Hsr Hv.
  apply validate_ok_iff in Hval. destruct Hval as (_ & Hd & _ & _).
  destruct (stereo_view_length a l r Hwf Hv) as [Hl Hr].
  assert (Hp : length (pan_curve c a sr) = len a) by apply pan_curve_len.
  exists (pan_left (pan_curve c a sr) l), (pan_right (pan_curve c a sr) r).
  split.
  { rewrite (panning_ok c a sr l r Hsr Hv). unfold stack2.
    rewrite pan_left_length by lia. rewrite Hl. reflexivity. }
  intros i Hi. exists (1 + nth i (pan_curve c a sr) 0).
  assert (Hb : - depth c <= nth i (pan_curve c a sr) 0 <= depth c).
  { unfold pan_curve. rewrite pan_curve_nth
      by (unfold time_axis; rewrite linspace_length; lia).
    apply pan_curve_bound. assumption. }
  unfold depth_ok in Hd.
  rewrite pan_left_nth, pan_right_nth by lia.
  repeat split; try lra; ring.
Qed.

(** ** The amplitude after the reverb *)

Lemma Rabs_le_iff (x m : R) : Rabs x <= m <-> - m <= x <= m.
Proof. unfold Rabs. destruct (Rcase_abs x); split; intros; lra. Qed.

Lemma bounded_nth (x : list R) (m : R) (j : nat) :
  0 <= m -> Forall (fun y => Rabs y <= m) x -> - m <= nth j x 0 <= m.
Proof.
  intros Hm H. destruct (Nat.lt_ge_cases j (length x)) as [Hj | Hj].
  - rewrite Forall_forall in H. apply Rabs_le_iff. apply H. apply nth_In. assumption.
  - rewrite nth_overflow by assumption. lra.
Qed.

(** The tap vectors that [impulse_response] can return. *)
Lemma impulse_response_shape (c : AudioConfig) (sr : Z) :
  (1 <= delay_samples c sr)%Z ->
  impulse_response c sr = Ok [reverb_decay c] \/
  exists m, impulse_response c sr = Ok (1 :: repeat 0 m ++ [reverb_decay c]).
Proof.
  intros Hd. destruct (Z.eq_dec (delay_samples c sr) 1) as [H1 | H1].
  - left. apply impulse_response_one. assumption.
  - right. exists (Z.to_nat (delay_samples c sr) - 2)%nat.
    apply impulse_response_taps. lia.
Qed.

Lemma reverb_channel_bound (ir x : list R) (g m : R) (i : nat) :
  ir = [g] \/ (exists k, ir = 1 :: repeat 0 k ++ [g]) ->
  0 <= g <= 1 -> 0 <= m -> Forall (fun y => Rabs y <= m) x ->
  (i < length x)%nat ->
  Rabs (nth i (reverb_channel ir x) 0) <= (1.5 + 0.5 * g) * m.
Proof.
  intros Hir Hg Hm Hx Hi. apply Rabs_le_iff.
  pose proof (bounded_nth x m i Hm Hx) as Bi.
  destruct Hir as [-> | [k ->]].
  - rewrite reverb_channel_nth, conv_at_one_tap by assumption. split; nra.
  - rewrite reverb_channel_two_taps by assumption.
    destruct (S k <=? i)%nat.
    + pose proof (bounded_nth x m (i - S k) Hm Hx) as Bj. split; nra.
    + split; nra.
Qed.

(** X5.  Under a validated configuration with at least one tap, the reverb of
    a buffer with at least one frame whose samples are bounded by M in
    absolute value returns a buffer of the same shape whose samples are
    bounded by (1.5 + 0.5 * reverb_decay) * M, hence by 2 * M. *)
Theorem reverb_amplitude_bound (c : AudioConfig) (sr : Z) (n : nat)
  (cols : list (list R)) (m : R) :
  validated c -> (1 <= delay_samples c sr)%Z -> (1 <= n)%nat ->
  wf (Arr2 n cols) ->
  Forall (fun y => Rabs y <= m) (elements (Arr2 n cols)) ->
  exists out,
    _apply_reverb c (Arr2 n cols) sr = Ok (Arr2 n out) /\
    length out = length cols /\
    wf (Arr2 n out) /\
    Forall (fun y => Rabs y <= (1.5 + 0.5 * reverb_decay c) * m /\
                     Rabs y <= 2 * m)
           (elements (Arr2 n out)).
Proof.
  intros Hval Hd Hn Hwf Hb.
  apply validate_ok_iff in Hval. destruct Hval as (_ & _ & _ & Hg).
  unfold reverb_decay_ok in Hg. simpl in Hwf, Hb.
  assert (Hir : exists ir, impulse_response c sr = Ok ir /\
            (ir = [reverb_decay c] \/
             exists k, ir = 1 :: repeat 0 k ++ [reverb_decay c])).
  { destruct (impulse_response_shape c sr Hd) as [H | [k H]]; eauto. }
  destruct Hir as (ir & Hir & Hshape).
  exists (map (reverb_channel ir) cols).
  split.
  { apply reverb_ok; [assumption |].
    rewrite Forall_forall in *. intros x Hx. apply length_nonempty.
    rewrite (Hwf x Hx). assumption. }
  split; [apply length_map |].
  split.
  { simpl. apply Forall_forall. intros y Hy. apply in_map_iff in Hy.
    destruct Hy as (x & <- & Hx). rewrite reverb_channel_length.
    rewrite Forall_forall in Hwf. apply Hwf. assumption. }
  simpl. apply Forall_forall. intros y Hy.
  apply in_concat in Hy. destruct Hy as (col & Hcol & Hy).
  apply in_map_iff in Hcol. destruct Hcol as (x & <- & Hx).
  apply (In_nth _ _ 0) in Hy. destruct Hy as (i & Hi & <-).
  rewrite reverb_channel_length in Hi.
  assert (Hxb : Forall (fun y => Rabs y <= m) x).
  { rewrite Forall_forall in *. intros z Hz. apply Hb.
    apply in_concat. exists x. split; assumption. }
  assert (Hm : 0 <= m).
  { rewrite Forall_forall in Hxb. pose proof (Hxb (nth i x 0) (nth_In _ _ Hi)).
    pose proof (Rabs_pos (nth i x 0)). lra. }
  pose proof (reverb_channel_bound ir x (reverb_decay c) m i Hshape Hg Hm Hxb Hi).
  split; [assumption | nra].
Qed.

(** ** When the effects return *)

Lemma normalize_defined (a : ndarray R) :
  elements a <> [] ->
  exists peak, normalize a = Ok (amap (fun x => np_true_divide x peak) a).
Proof.
  intros H. destruct (np_max_abs_defined a H) as [peak Hp].
  exists peak. unfold normalize. rewrite Hp. reflexivity.
Qed.

Lemma effects_return (c : AudioConfig) (a : ndarray R) (sr : Z)
  (l r : list R) :
  wf a -> sr <> 0%Z -> stereo_view a = Some (l, r) ->
  (1 <= len a)%nat -> (1 <= delay_samples c sr)%Z ->
  exists l' r', apply_effects c a sr = Ok (Arr2 (len a) [l'; r']) /\
                length l' = len a /\ length r' = len a.
Proof.
  intros Hwf Hsr Hv Hn Hd.
  destruct (stereo_view_length a l r Hwf Hv) as [Hl Hr].
  set (p := pan_curve c a sr).
  assert (Hp : length p = len a) by apply pan_curve_len.
  assert (Hpl : length (pan_left p l) = len a)
    by (rewrite pan_left_length; lia).
  assert (Hpr : length (pan_right p r) = len a)
    by (rewrite pan_right_length; lia).
  destruct (impulse_response_defined c sr Hd) as [ir Hir].
  unfold apply_effects.
  rewrite (panning_ok c a sr l r Hsr Hv). fold p. unfold stack2.
  cbn [bind]. rewrite Hpl.
  rewrite (reverb_ok c sr _ _ ir Hir)
    by (repeat constructor; apply length_nonempty; lia).
  cbn [bind map].
  destruct (normalize_defined
              (Arr2 (len a) [reverb_channel ir (pan_left p l);
                             reverb_channel ir (pan_right p r)]))
    as [peak Hnorm].
  { cbn [elements concat]. intros E. apply app_eq_nil in E. destruct E as [E _].
    apply (f_equal (@length R)) in E.
    rewrite reverb_channel_length in E. simpl in E. lia. }
  rewrite Hnorm. cbn [amap map].
  eexists. eexists. split; [reflexivity |].
  rewrite !length_map, !reverb_channel_length. split; assumption.
Qed.

(** X6.  On a well-formed buffer the three effects return a buffer exactly
    when the sample rate is not zero, the buffer is one-dimensional or has at
    least two columns, it has at least one frame, and delay_samples is at
    least 1; the buffer they return is stereo with the frame count of the
    input. *)
Theorem effects_return_iff (c : AudioConfig) (a : ndarray R) (sr : Z) :
  wf a ->
  (sr <> 0%Z /\ (exists l r, stereo_view a = Some (l, r)) /\
   (1 <= len a)%nat /\ (1 <= delay_samples c sr)%Z) <->
  (exists l' r', apply_effects c a sr = Ok (Arr2 (len a) [l'; r']) /\
                 length l' = len a /\ length r' = len a).
Proof.
  intros Hwf. split.
  - intros (Hsr & (l & r & Hv) & Hn & Hd).
    apply (effects_return c a sr l r); assumption.
  - intros (l' & r' & H & _). unfold apply_effects in H.
    destruct (_apply_panning c a sr) as [a1 | e] eqn:Hpan; [| discriminate].
    cbn [bind] in H.
    destruct (panning_ok_inv c a a1 sr Hpan) as (Hsr & Hv).
    destruct (_apply_reverb c a1 sr) as [a2 | e] eqn:Hrev; [| discriminate].
    split; [assumption |]. split; [assumption |].
    split.
    + destruct (Nat.eq_dec (len a) 0) as [E | E]; [| lia].
      rewrite (panning_of_no_frame c a a1 sr E Hpan) in Hrev.
      destruct (reverb_of_no_frame c sr) as (e & He & _).
      rewrite He in Hrev. discriminate.
    + unfold _apply_reverb in Hrev.
      destruct (Z.lt_trichotomy (delay_samples c sr) 0) as [Hn | [Hz | Hp]].
      * rewrite impulse_response_negative in Hrev by assumption. discriminate.
      * rewrite impulse_response_zero in Hrev by assumption. discriminate.
      * lia.
Qed.

(** ** Scaling back to 16-bit integers *)

Lemma Int_part_range (x : R) (n : Z) :
  0 <= x <= IZR n -> (0 <= Int_part x <= n)%Z.
Proof.
  intros [H0 Hn]. destruct (base_Int_part x) as [H1 H2]. split.
  - assert (H : IZR (-1) < IZR (Int_part x)) by (simpl; lra).
    apply lt_IZR in H. lia.
  - apply le_IZR. lra.
Qed.

Lemma Rtrunc_range (x : R) (n : Z) :
  - IZR n <= x <= IZR n -> (- n <= Rtrunc x <= n)%Z.
Proof.
  intros [H1 H2]. unfold Rtrunc. destruct (Rle_dec 0 x) as [Hx | Hx].
  - pose proof (Int_part_range x n (conj Hx H2)). lia.
  - assert (H : 0 <= - x <= IZR n) by lra.
    pose proof (Int_part_range (- x) n H). lia.
Qed.

Lemma Int_part_IZR (n : Z) : Int_part (IZR n) = n.
Proof. symmetry. apply Int_part_spec. lra. Qed.

Lemma Rtrunc_IZR (n : Z) : Rtrunc (IZR n) = n.
Proof.
  unfold Rtrunc. destruct (Rle_dec 0 (IZR n)) as [H | H].
  - apply Int_part_IZR.
  - rewrite <- opp_IZR, Int_part_IZR. lia.
Qed.

(** X9.  When the signal after the reverb has a sample that is not zero, the
    scaling of the normalised signal to 16-bit integers is defined on every
    sample, every integer is between -32767 and 32767, and the sample at the
    peak becomes 32767 or -32767. *)
Theorem int16_scaling_in_range (post : ndarray R) :
  Exists (fun x => x <> 0) (elements post) ->
  exists (normalized : ndarray npfloat) (q : ndarray Z),
    normalize post = Ok normalized /\
    scale_to_int16 normalized = amap Some q /\
    Forall (fun z => (-32767 <= z <= 32767)%Z) (elements q) /\
    Exists (fun z => Z.abs z = 32767%Z) (elements q).
Proof.
  intros Hex.
  destruct (normalize_peak post Hex) as (out & Hnorm & Hpeak & Hrange).
  rewrite Forall_forall in Hrange.
  assert (Hq : forall y, In y (elements out) ->
                 (-32767 <= Rtrunc (y * 32767) <= 32767)%Z).
  { intros y Hy. apply (Rtrunc_range _ 32767). pose proof (Hrange y Hy). lra. }
  exists (amap Fin out), (amap (fun y => Rtrunc (y * 32767)) out).
  split; [exact Hnorm |].
  split.
  { unfold scale_to_int16. rewrite !amap_amap. apply amap_ext_in.
    intros y Hy. cbn [np_multiply astype_int16]. pose proof (Hq y Hy) as [H1 H2].
    destruct (Z.leb_spec (-32768) (Rtrunc (y * 32767))); [| lia].
    destruct (Z.leb_spec (Rtrunc (y * 32767)) 32767); [| lia].
    reflexivity. }
  split.
  { apply Forall_forall. intros z Hz. rewrite elements_amap in Hz.
    apply in_map_iff in Hz. destruct Hz as (y & <- & Hy). apply Hq. assumption. }
  destruct (np_max_abs_spec out 1 Hpeak) as [Hin _].
  apply in_map_iff in Hin. destruct Hin as (y & Hy1 & Hy).
  apply Exists_exists. exists (Rtrunc (y * 32767)). split.
  - rewrite elements_amap.
    apply (in_map (fun y0 => Rtrunc (y0 * 32767))). assumption.
  - unfold Rabs in Hy1. destruct (Rcase_abs y).
    + replace (y * 32767) with (IZR (-32767)) by (simpl; lra).
      rewrite Rtrunc_IZR. reflexivity.
    + replace (y * 32767) with (IZR 32767) by (simpl; lra).
      rewrite Rtrunc_IZR. reflexivity.
Qed.

(** ** File names *)

Lemma lower_char_dot (c : ascii) :
  Ascii.eqb (lower_char c) "." = Ascii.eqb c ".".
Proof.
  destruct c as [[] [] [] [] [] [] [] []]; reflexivity.
Qed.

Lemma contains_lower (s : string) : contains "." (lower s) = contains "." s.
Proof.
  induction s as [| a t IH]; simpl; [reflexivity |].
  rewrite lower_char_dot, IH. reflexivity.
Qed.

Lemma lower_app (a b : string) : lower (a ++ b) = (lower a ++ lower b)%string.
Proof. induction a as [| c a IH]; simpl; [reflexivity | rewrite IH; reflexivity]. Qed.

Lemma contains_app_sep (c : ascii) (pre r : string) :
  contains c (pre ++ String c r) = true.
Proof.
  induction pre as [| a pre IH]; simpl.
  - rewrite Ascii.eqb_refl. reflexivity.
  - rewrite IH. apply orb_true_r.
Qed.

Lemma rsplit1_no_sep (sep : ascii) (s : string) :
  contains sep s = false -> rsplit1 sep s = [s].
Proof.
  induction s as [| a t IH]; simpl; [reflexivity |].
  intros H. apply orb_false_iff in H. destruct H as [Ha Ht].
  rewrite (IH Ht), Ha. reflexivity.
Qed.

(** The string is cut at its last separator. *)
Lemma rsplit1_app (sep : ascii) (h r : string) :
  contains sep r = false ->
  rsplit1 sep (h ++ String sep r) = [h; r].
Proof.
  intros Hr. induction h as [| a h IH]; simpl.
  - rewrite (rsplit1_no_sep sep r Hr), Ascii.eqb_refl. reflexivity.
  - simpl in IH. rewrite IH. reflexivity.
Qed.

Lemma contains_split (sep : ascii) (s : string) :
  contains sep s = true ->
  exists h r, s = (h ++ String sep r)%string /\ contains sep r = false.
Proof.
  induction s as [| a t IH]; simpl; [discriminate |].
  intros H. destruct (contains sep t) eqn:Ht.
  - destruct (IH eq_refl) as (h & r & -> & Hr).
    exists (String a h), r. split; [reflexivity | assumption].
  - rewrite orb_false_r in H. apply Ascii.eqb_eq in H. subst a.
    exists EmptyString, t. split; [reflexivity | assumption].
Qed.

Lemma endswith_app (pre suffix : string) :
  endswith (pre ++ suffix) suffix = true.
Proof.
  induction pre as [| a pre IH]; simpl.
  - destruct suffix; cbn [endswith]; rewrite String.eqb_refl; reflexivity.
  - rewrite IH. apply orb_true_r.
Qed.

Lemma endswith_inv (s suffix : string) :
  endswith s suffix = true -> exists pre, s = (pre ++ suffix)%string.
Proof.
  induction s as [| a t IH]; intros H.
  - cbn [endswith] in H. rewrite orb_false_r in H. apply String.eqb_eq in H.
    exists EmptyString. subst. reflexivity.
  - cbn [endswith] in H. apply orb_true_iff in H. destruct H as [H | H].
    + apply String.eqb_eq in H. exists EmptyString. subst. reflexivity.
    + destruct (IH H) as [pre ->]. exists (String a pre). reflexivity.
Qed.

(** A name with a dot is accepted by [allowed_file] when the text after its
    last dot is mp3 in any case of letters. *)
Lemma allowed_file_split (h r : string) :
  contains "." r = false ->
  allowed_file (h ++ String "." r) = Ok (String.eqb (lower r) "mp3").
Proof.
  intros Hr. unfold allowed_file.
  rewrite contains_app_sep, rsplit1_app by assumption.
  cbn [nth_error ALLOWED_EXTENSIONS existsb]. rewrite orb_false_r. reflexivity.
Qed.

Lemma allowed_file_spec (filename : string) :
  allowed_file filename = Ok (is_mp3_path filename).
Proof.
  unfold is_mp3_path.
  destruct (contains "." filename) eqn:Hc.
  - destruct (contains_split "." filename Hc) as (h & r & -> & Hr).
    rewrite allowed_file_split by assumption. f_equal.
    assert (Hlow : lower (h ++ String "." r) =
                   (lower h ++ String "." (lower r))%string)
      by (rewrite lower_app; reflexivity).
    rewrite Hlow.
    destruct (String.eqb_spec (lower r) "mp3") as [E | E].
    + rewrite E. symmetry. apply (endswith_app (lower h) ".mp3").
    + symmetry. destruct (endswith (lower h ++ String "." (lower r)) ".mp3") eqn:He;
        [| reflexivity].
      exfalso. apply E.
      destruct (endswith_inv _ _ He) as [pre Hpre].
      assert (H1 : rsplit1 "." (lower h ++ String "." (lower r)) =
                   [lower h; lower r])
        by (apply rsplit1_app; rewrite contains_lower; assumption).
      rewrite Hpre in H1.
      change (pre ++ ".mp3")%string with (pre ++ String "." "mp3")%string in H1.
      rewrite rsplit1_app in H1 by reflexivity.
      inversion H1. reflexivity.
  - unfold allowed_file. rewrite Hc. f_equal. symmetry.
    destruct (endswith (lower filename) ".mp3") eqn:He; [| reflexivity].
    destruct (endswith_inv _ _ He) as [pre Hpre].
    rewrite <- contains_lower, Hpre in Hc.
    change (pre ++ ".mp3")%string with (pre ++ String "." "mp3")%string in Hc.
    rewrite contains_app_sep in Hc. discriminate.
Qed.

(** X10.  The upload filter [allowed_file] of the application and the
    extension test of [convert_file] accept the same names: a name is allowed
    exactly when its lower-case form ends with .mp3.  In particular
    [allowed_file] never raises. *)
Theorem allowed_file_agrees_with_converter (filename : string) :
  allowed_file filename = Ok (is_mp3_path filename).
Proof. apply allowed_file_spec. Qed.

(** X11.  Only the text after the last dot of a name counts, in any case of
    letters: a name stem.ext whose ext has no dot is allowed exactly when the
    lower-case form of ext is mp3, whatever the stem is; and a name without a
    dot is not allowed. *)
Theorem allowed_file_last_extension (stem ext : string) :
  contains "." ext = false ->
  allowed_file (stem ++ String "." ext) = Ok (String.eqb (lower ext) "mp3") /\
  allowed_file ext = Ok false.
Proof.
  intros H. split; [apply allowed_file_split; assumption |].
  unfold allowed_file. rewrite H. reflexivity.
Qed.

(** ** Looking for ffmpeg *)

Lemma try_paths_found (w : world) (pre : list string) (p : string)
  (post : list string) (tr : list call) :
  (forall x, In x pre -> os_system w (version_command x) <> 0%Z) ->
  os_system w (version_command p) = 0%Z ->
  try_paths w (pre ++ p :: post) tr = (Ok tt, tr ++ probes (pre ++ [p])).
Proof.
  revert tr. induction pre as [| x pre IH]; intros tr Hpre Hp.
  - cbn [app try_paths]. unfold io_bind, system. rewrite Hp. reflexivity.
  - cbn [app try_paths]. unfold io_bind at 1. unfold system at 1.
    destruct (Z.eqb_spec (os_system w (version_command x)) 0) as [E | _].
    + exfalso. apply (Hpre x); [left; reflexivity | assumption].
    + rewrite IH by (auto; intros y Hy; apply Hpre; right; assumption).
      unfold probes. cbn [app map]. rewrite <- app_assoc. reflexivity.
Qed.

Lemma try_paths_not_found (w : world) (paths : list string) (tr : list call) :
  (forall x, In x paths -> os_system w (version_command x) <> 0%Z) ->
  try_paths w paths tr = (Err (RuntimeError ffmpeg_not_found), tr ++ probes paths).
Proof.
  revert tr. induction paths as [| x paths IH]; intros tr H.
  - cbn. rewrite app_nil_r. reflexivity.
  - cbn [try_paths]. unfold io_bind at 1. unfold system at 1.
    destruct (Z.eqb_spec (os_system w (version_command x)) 0) as [E | _].
    + exfalso. apply (H x); [left; reflexivity | assumption].
    + rewrite IH by (intros y Hy; apply H; right; assumption).
      unfold probes. cbn [app map]. rewrite <- app_assoc. reflexivity.
Qed.

(** The paths are either all refused, or split at the first one accepted. *)
Lemma first_accepted (w : world) (paths : list string) :
  (forall x, In x paths -> os_system w (version_command x) <> 0%Z) \/
  exists pre p post,
    paths = pre ++ p :: post /\
    (forall x, In x pre -> os_system w (version_command x) <> 0%Z) /\
    os_system w (version_command p) = 0%Z.
Proof.
  induction paths as [| x paths IH].
  - left. intros x [].
  - destruct (Z.eq_dec (os_system w (version_command x)) 0) as [E | E].
    + right. exists [], x, paths. split; [reflexivity |]. split; [intros y [] | assumption].
    + destruct IH as [H | (pre & p & post & -> & Hpre & Hp)].
      * left. intros y [<- | Hy]; [assumption | apply H; assumption].
      * right. exists (x :: pre), p, post. split; [reflexivity |].
        split; [| assumption].
        intros y [<- | Hy]; [assumption | apply Hpre; assumption].
Qed.

(** What [_check_ffmpeg] returns and which commands it runs. *)
Lemma check_ffmpeg_cases (w : world) (tr : list call) :
  (exists cmds, _check_ffmpeg w tr = (Ok tt, tr ++ probes cmds)) \/
  _check_ffmpeg w tr =
    (Err (RuntimeError ffmpeg_not_found), tr ++ probes ffmpeg_paths).
Proof.
  unfold _check_ffmpeg.
  destruct (first_accepted w ffmpeg_paths) as [H | (pre & p & post & E & Hpre & Hp)].
  - right. apply try_paths_not_found. assumption.
  - left. exists (pre ++ [p]). rewrite E. apply try_paths_found; assumption.
Qed.

(** X12.  [_check_ffmpeg] tries the four paths in their order and stops at
    the first whose command exits with 0: it then returns, having run the
    commands up to that one and no other.  When none exits with 0 it has run
    the four commands and raises RuntimeError with the installation hint. *)
Theorem check_ffmpeg_stops_at_first (w : world) (tr : list call) :
  (forall pre p post,
     ffmpeg_paths = pre ++ p :: post ->
     (forall x, In x pre -> os_system w (version_command x) <> 0%Z) ->
     os_system w (version_command p) = 0%Z ->
     _check_ffmpeg w tr = (Ok tt, tr ++ probes (pre ++ [p]))) /\
  ((forall x, In x ffmpeg_paths -> os_system w (version_command x) <> 0%Z) ->
   _check_ffmpeg w tr =
     (Err (RuntimeError ffmpeg_not_found), tr ++ probes ffmpeg_paths)).
Proof.
  split.
  - intros pre p post E Hpre Hp. unfold _check_ffmpeg. rewrite E.
    apply try_paths_found; assumption.
  - intros H. apply try_paths_not_found. assumption.
Qed.

(** ** Constructing the converter *)

(** X13.  The constructor validates before it looks for ffmpeg: with a
    configuration out of range it raises the validation error and runs no
    command.  With no configuration it takes the default one, which is always
    in range, so that it can only fail for want of ffmpeg. *)
Theorem init_validates_before_probing (w : world) (tr : list call) :
  (forall c e, _validate_config c = Err e ->
     Audio8DConverter_init w (Some c) tr = (Err e, tr)) /\
  ((exists cmds, Audio8DConverter_init w None tr =
                   (Ok default_config, tr ++ probes cmds)) \/
   Audio8DConverter_init w None tr =
     (Err (RuntimeError ffmpeg_not_found), tr ++ probes ffmpeg_paths)).
Proof.
  split.
  - intros c e H. unfold Audio8DConverter_init, io_bind, io_lift.
    rewrite H. reflexivity.
  - unfold Audio8DConverter_init, io_bind, io_lift.
    rewrite validated_default.
    destruct (check_ffmpeg_cases w tr) as [[cmds H] | H]; rewrite H.
    + left. exists cmds. reflexivity.
    + right. reflexivity.
Qed.

(** ** The paths of the application *)

Lemma os_path_join_cases (a b : string) :
  os_path_join a b = b \/ os_path_join a b = (a ++ "/" ++ b)%string.
Proof.
  unfold os_path_join.
  destruct b as [| ch b']; [right; reflexivity |].
  destruct ch as [[] [] [] [] [] [] [] []]; auto.
Qed.

Lemma string_app_assoc (a b c : string) :
  ((a ++ b) ++ c)%string = (a ++ (b ++ c))%string.
Proof. induction a as [| x a IH]; simpl; [reflexivity | rewrite IH; reflexivity]. Qed.

Lemma is_mp3_path_suffix (pre : string) : is_mp3_path (pre ++ ".mp3") = true.
Proof.
  unfold is_mp3_path. rewrite lower_app.
  change (lower ".mp3") with ".mp3". apply endswith_app.
Qed.

Lemma is_mp3_path_join (a stem : string) :
  is_mp3_path (os_path_join a (stem ++ ".mp3")) = true.
Proof.
  destruct (os_path_join_cases a (stem ++ ".mp3")) as [E | E]; rewrite E.
  - apply is_mp3_path_suffix.
  - rewrite <- !string_app_assoc. apply is_mp3_path_suffix.
Qed.

Lemma input_path_of_mp3 (w : world) (filename : string) :
  is_mp3_path (input_path_of w filename) = true.
Proof.
  unfold input_path_of.
  rewrite <- !string_app_assoc. apply is_mp3_path_join.
Qed.

(** X14.  The path under which the application saves an upload always passes
    the extension test of [convert_file], whatever the uploaded name, the
    clock and the library functions that clean the name are. *)
Theorem input_path_is_mp3 (w : world) (filename : string) :
  is_mp3_path (input_path_of w filename) = true.
Proof. apply input_path_of_mp3. Qed.

(** ** The conversion of a file *)

Lemma io_bind_ok {A B : Type} (m : io A) (k : A -> io B) (tr tr' : list call)
  (b : B) :
  io_bind m k tr = (Ok b, tr') ->
  exists a tr1, m tr = (Ok a, tr1) /\ k a tr1 = (Ok b, tr').
Proof.
  unfold io_bind. destruct (m tr) as [[a | e] tr1]; intros H.
  - exists a, tr1. split; [reflexivity | assumption].
  - discriminate.
Qed.

Lemma io_bind_err {A B : Type} (m : io A) (k : A -> io B) (tr tr' : list call)
  (e : exn) :
  io_bind m k tr = (Err e, tr') ->
  m tr = (Err e, tr') \/
  exists a tr1, m tr = (Ok a, tr1) /\ k a tr1 = (Err e, tr').
Proof.
  unfold io_bind. destruct (m tr) as [[a | e0] tr1]; intros H.
  - right. exists a, tr1. split; [reflexivity | assumption].
  - left. inversion H; subst. reflexivity.
Qed.


(** What [convert_file] returns, and the calls it has made by then. *)
Lemma convert_file_path_cases (w : world) (c : AudioConfig)
  (input_path output_path : string) (tr tr' : list call) (r : result bool) :
  convert_file_path w c input_path output_path tr = (r, tr') ->
  exists l,
    tr' = tr ++ l /\
    Forall (conversion_call w output_path) l /\
    match r with
    | Ok b =>
        b = true /\
        path_exists w input_path = true /\
        exists a data,
          from_mp3 w input_path = Ok a /\
          convert_file c (channels a) (frame_rate a) (samples a)
            (sample_max a) = Ok data /\
          l = [MakeDirs output_path; TempFile (temp_name w);
               WriteWav (temp_name w) 2 2 (frame_rate a) (scale_to_int16 data);
               Export (temp_name w) output_path; Unlink (temp_name w)] /\
          Forall (fun x => extern w x = Ok tt) l
    | Err e =>
        ~ (In (Unlink (temp_name w)) l /\
           extern w (Unlink (temp_name w)) = Ok tt)
    end.
Proof.
  unfold convert_file_path.
  destruct (path_exists w input_path) eqn:Hex; cbn [negb].
  2:{ intros H. inversion H; subst. exists []. rewrite app_nil_r.
      split; [reflexivity |]. split; [constructor |]. intros [[] _]. }
  destruct (is_mp3_path input_path) eqn:Hmp3; cbn [negb].
  2:{ intros H. inversion H; subst. exists []. rewrite app_nil_r.
      split; [reflexivity |]. split; [constructor |]. intros [[] _]. }
  unfold io_bind, perform, io_lift, io_ret.
  destruct (extern w (MakeDirs output_path)) as [[] | e0] eqn:E0.
  2:{ intros H. inversion H; subst. eexists. split; [reflexivity |].
      split; [repeat constructor |]. simpl. intros [[F | []] _]. discriminate. }
  destruct (from_mp3 w input_path) as [a | e1] eqn:E1.
  2:{ intros H. inversion H; subst. eexists. split; [reflexivity |].
      split; [repeat constructor |]. simpl. intros [[F | []] _]. discriminate. }
  destruct (convert_file c (channels a) (frame_rate a) (samples a) (sample_max a))
    as [data | e2] eqn:E2.
  2:{ intros H. inversion H; subst. eexists. split; [reflexivity |].
      split; [repeat constructor |]. simpl. intros [[F | []] _]. discriminate. }
  destruct (extern w (TempFile (temp_name w))) as [[] | e3] eqn:E3.
  2:{ intros H. inversion H; subst. rewrite <- !app_assoc. eexists.
      split; [reflexivity |]. split; [repeat constructor |]. simpl.
      intros [[F | [F | []]] _]; discriminate. }
  destruct (extern w (WriteWav (temp_name w) 2 2 (frame_rate a)
                        (scale_to_int16 data))) as [[] | e4] eqn:E4.
  2:{ intros H. inversion H; subst. rewrite <- !app_assoc. eexists.
      split; [reflexivity |]. split; [repeat constructor |]. simpl.
      intros [[F | [F | [F | []]]] _]; discriminate. }
  destruct (extern w (Export (temp_name w) output_path)) as [[] | e5] eqn:E5.
  2:{ intros H. inversion H; subst. rewrite <- !app_assoc. eexists.
      split; [reflexivity |]. split; [repeat constructor |]. simpl.
      intros [[F | [F | [F | [F | []]]]] _]; discriminate. }
  destruct (extern w (Unlink (temp_name w))) as [[] | e6] eqn:E6.
  2:{ intros H. inversion H; subst. rewrite <- !app_assoc. eexists.
      split; [reflexivity |]. split; [repeat constructor |]. simpl.
      intros [_ F]. discriminate. }
  intros H. inversion H; subst. rewrite <- !app_assoc. eexists.
  split; [reflexivity |]. split; [repeat constructor |].
  split; [reflexivity |]. split; [reflexivity |].
  exists a, data. repeat split; try assumption. simpl.
  repeat constructor; assumption.
Qed.

(** X15.  When [convert_file] raises, the temporary WAV file, if it was
    created, has not been deleted: the file is made with delete=False and is
    unlinked only after the encoding has returned.  Every call that
    [convert_file] makes is about its output path or its temporary file. *)
Theorem convert_file_leaves_temp_on_error (w : world) (c : AudioConfig)
  (input_path output_path : string) (e : exn) (tr : list call) :
  convert_file_path w c input_path output_path [] = (Err e, tr) ->
  Forall (conversion_call w output_path) tr /\
  ~ (In (Unlink (temp_name w)) tr /\ extern w (Unlink (temp_name w)) = Ok tt).
Proof.
  intros H.
  destruct (convert_file_path_cases w c input_path output_path [] tr (Err e) H)
    as (l & -> & Hcalls & Hno).
  split; assumption.
Qed.

(** ** The route [/convert] *)

Lemma io_bind_eq {A B : Type} (m : io A) (k : A -> io B) (tr : list call) :
  io_bind m k tr =
  match m tr with
  | (Ok a, tr') => k a tr'
  | (Err e, tr') => (Err e, tr')
  end.
Proof. reflexivity. Qed.

Lemma init_cases (w : world) (c : AudioConfig) (tr tr' : list call)
  (r : result AudioConfig) :
  Audio8DConverter_init w (Some c) tr = (r, tr') ->
  exists cmds,
    tr' = tr ++ probes cmds /\
    match r with
    | Ok c' => c' = c /\ validated c
    | Err _ => True
    end.
Proof.
  unfold Audio8DConverter_init. rewrite io_bind_eq. unfold io_lift.
  destruct (_validate_config c) as [[] | e] eqn:Hv.
  2:{ intros H. inversion H; subst. exists []. rewrite app_nil_r. auto. }
  rewrite io_bind_eq.
  destruct (check_ffmpeg_cases w tr) as [[cmds H] | H]; rewrite H;
    intros H'; inversion H'; subst.
  - exists cmds. split; [reflexivity |]. split; [reflexivity | exact Hv].
  - exists ffmpeg_paths. split; [reflexivity | exact I].
Qed.

Lemma no_remove_in_probes (p : string) (cmds : list string) :
  ~ In (Remove p) (probes cmds).
Proof.
  unfold probes. intros H. apply in_map_iff in H. destruct H as (x & F & _).
  discriminate.
Qed.

Lemma no_remove_in_conversion (w : world) (out p : string) (l : list call) :
  Forall (conversion_call w out) l -> ~ In (Remove p) l.
Proof.
  intros H Hin. rewrite Forall_forall in H. apply (H _ Hin).
Qed.

Lemma empty_name_is_not_mp3 : is_mp3_path EmptyString = false.
Proof. reflexivity. Qed.

(** What the body of [convert_audio] does with an upload whose name is
    accepted. *)
Lemma accepted_request_cases (w : world) (req : request) (f : string) :
  files_file req = Some f -> is_mp3_path f = true ->
  exists r l,
    convert_audio_body w req [] = (r, Save (input_path_of w f) :: l) /\
    match r with
    | Ok resp =>
        resp = SendFile (output_path_of w f)
                 (splitext_root w (secure_filename w f) ++ "_8d.mp3") /\
        extern w (Save (input_path_of w f)) = Ok tt /\
        exists c cmds a data,
          form_gives w req c /\ validated c /\
          from_mp3 w (input_path_of w f) = Ok a /\
          convert_file c (channels a) (frame_rate a) (samples a)
            (sample_max a) = Ok data /\
          l = probes cmds ++ conversion_calls w (output_path_of w f) a data ++
              [Remove (input_path_of w f)] /\
          extern w (Unlink (temp_name w)) = Ok tt /\
          extern w (Remove (input_path_of w f)) = Ok tt /\
          send_file w (output_path_of w f)
            (splitext_root w (secure_filename w f) ++ "_8d.mp3") = Ok tt
    | Err e =>
        forall p, In (Remove p) l ->
          extern w (Remove p) = Err e \/
          (p = input_path_of w f /\
           send_file w (output_path_of w f)
             (splitext_root w (secure_filename w f) ++ "_8d.mp3") = Err e)
    end.
Proof.
  intros Hfile Hmp3. unfold convert_audio_body. rewrite Hfile.
  destruct (String.eqb_spec f EmptyString) as [E | _].
  { subst f. rewrite empty_name_is_not_mp3 in Hmp3. discriminate. }
  rewrite io_bind_eq. unfold io_lift at 1. rewrite allowed_file_spec, Hmp3.
  cbn [negb]. rewrite io_bind_eq. unfold perform at 1. cbn [app].
  set (inp := input_path_of w f). set (out := output_path_of w f).
  destruct (extern w (Save inp)) as [[] | e] eqn:ES.
  2:{ exists (Err e), []. split; [reflexivity | intros p []]. }
  rewrite io_bind_eq. unfold io_lift at 1.
  destruct (form_float w req "pan_speed" 0.5) as [ps | e] eqn:E1.
  2:{ exists (Err e), []. split; [reflexivity | intros p []]. }
  rewrite io_bind_eq. unfold io_lift at 1.
  destruct (form_float w req "depth" 0.95) as [dp | e] eqn:E2.
  2:{ exists (Err e), []. split; [reflexivity | intros p []]. }
  rewrite io_bind_eq. unfold io_lift at 1.
  destruct (form_int w req "reverb_delay" 50) as [dl | e] eqn:E3.
  2:{ exists (Err e), []. split; [reflexivity | intros p []]. }
  rewrite io_bind_eq. unfold io_lift at 1.
  destruct (form_float w req "reverb_decay" 0.3) as [dc | e] eqn:E4.
  2:{ exists (Err e), []. split; [reflexivity | intros p []]. }
  set (c := {| pan_speed := ps; depth := dp; reverb_delay := dl;
               reverb_decay := dc |}).
  rewrite io_bind_eq.
  destruct (Audio8DConverter_init w (Some c) [Save inp]) as [r1 tr1] eqn:Hinit.
  destruct (init_cases w c _ _ _ Hinit) as (cmds & -> & Hr1).
  destruct r1 as [c' | e].
  2:{ exists (Err e), (probes cmds). split; [reflexivity |].
      intros p Hp. exfalso. eapply no_remove_in_probes. eassumption. }
  destruct Hr1 as [-> Hval].
  rewrite io_bind_eq.
  destruct (convert_file_path w c inp out ([Save inp] ++ probes cmds))
    as [r2 tr2] eqn:Hconv.
  destruct (convert_file_path_cases w c inp out _ _ _ Hconv)
    as (l2 & -> & Hcalls & Hr2).
  destruct r2 as [b | e].
  2:{ exists (Err e), (probes cmds ++ l2). rewrite <- app_assoc.
      split; [reflexivity |].
      intros p Hp. exfalso. apply in_app_or in Hp. destruct Hp as [Hp | Hp].
      - eapply no_remove_in_probes. eassumption.
      - eapply no_remove_in_conversion; eassumption. }
  destruct Hr2 as (-> & Hex & a & data & Ha & Hdata & -> & Hok).
  rewrite io_bind_eq. unfold perform at 1.
  destruct (extern w (Remove inp)) as [[] | e] eqn:ER.
  - rewrite io_bind_eq. unfold io_lift at 1.
    destruct (send_file w out
                (splitext_root w (secure_filename w f) ++ "_8d.mp3"))
      as [[] | e] eqn:ESend.
    + eexists (Ok _), _. rewrite <- !app_assoc. split; [reflexivity |].
      split; [reflexivity |]. split; [reflexivity |].
      exists c, cmds, a, data.
      split; [repeat split; assumption |].
      split; [assumption |]. split; [assumption |]. split; [assumption |].
      split; [reflexivity |].
      split; [| split; reflexivity].
      rewrite Forall_forall in Hok. apply Hok. simpl. auto 10.
    + exists (Err e),
        (probes cmds ++ conversion_calls w out a data ++ [Remove inp]).
      rewrite <- !app_assoc. split; [reflexivity |].
      intros p Hp. apply in_app_or in Hp. destruct Hp as [Hp | Hp].
      { exfalso. eapply no_remove_in_probes. eassumption. }
      apply in_app_or in Hp. destruct Hp as [Hp | Hp].
      { exfalso. eapply no_remove_in_conversion; eassumption. }
      destruct Hp as [Hp | []]. inversion Hp; subst.
      right. split; reflexivity.
  - exists (Err e), (probes cmds ++ conversion_calls w out a data ++ [Remove inp]).
    rewrite <- !app_assoc. split; [reflexivity |].
    intros p Hp. apply in_app_or in Hp. destruct Hp as [Hp | Hp].
    { exfalso. eapply no_remove_in_probes. eassumption. }
    apply in_app_or in Hp. destruct Hp as [Hp | Hp].
    { exfalso. eapply no_remove_in_conversion; eassumption. }
    destruct Hp as [Hp | []]. inversion Hp; subst. left. assumption.
Qed.

Lemma mono_file_error (c : AudioConfig) (fr : Z) (s : list Z) (m : Z) :
  exists e, convert_file c 1 fr s m = Err e.
Proof.
  unfold convert_file, reshape_samples, apply_effects, _apply_panning,
    py_truediv; simpl.
  destruct (fr =? 0)%Z; eexists; reflexivity.
Qed.

(** X16.  A request without a file, with an empty file name or with a name
    that is not an MP3 name is answered with the status 400 before anything
    is written: no call is made.  Every other request is first saved under
    the upload folder, and is never answered with 400. *)
Theorem rejected_uploads_touch_nothing (w : world) (req : request) :
  (files_file req = None ->
     convert_audio w req = (Json "No file uploaded" 400, [])) /\
  (files_file req = Some EmptyString ->
     convert_audio w req = (Json "No file selected" 400, [])) /\
  (forall f, files_file req = Some f -> f <> EmptyString -> is_mp3_path f = false ->
     convert_audio w req =
       (Json "Invalid file type. Only MP3 files are allowed" 400, [])) /\
  (forall f, files_file req = Some f -> is_mp3_path f = true ->
     exists resp l,
       convert_audio w req = (resp, Save (input_path_of w f) :: l) /\
       forall msg, resp <> Json msg 400).
Proof.
  repeat split.
  - intros H. unfold convert_audio, convert_audio_body. rewrite H. reflexivity.
  - intros H. unfold convert_audio, convert_audio_body. rewrite H. reflexivity.
  - intros f H Hne Hmp3. unfold convert_audio, convert_audio_body. rewrite H.
    destruct (String.eqb_spec f EmptyString) as [E | _]; [contradiction |].
    rewrite io_bind_eq. unfold io_lift. rewrite allowed_file_spec, Hmp3.
    reflexivity.
  - intros f H Hmp3.
    destruct (accepted_request_cases w req f H Hmp3) as (r & l & Hbody & Hr).
    unfold convert_audio. rewrite Hbody. destruct r as [resp | e].
    + exists resp, l. split; [reflexivity |].
      destruct Hr as (-> & _). intros msg F. discriminate.
    + eexists _, l. split; [reflexivity |]. intros msg F. inversion F.
Qed.

Lemma request_cases (w : world) (req : request) :
  (exists msg, convert_audio w req = (Json msg 400, [])) \/
  exists f, files_file req = Some f /\ is_mp3_path f = true.
Proof.
  destruct (files_file req) as [f |] eqn:Hf.
  - destruct (is_mp3_path f) eqn:Hmp3.
    + right. exists f. split; [reflexivity | assumption].
    + left. unfold convert_audio, convert_audio_body. rewrite Hf.
      destruct (String.eqb_spec f EmptyString) as [E | _].
      * eexists. reflexivity.
      * rewrite io_bind_eq. unfold io_lift. rewrite allowed_file_spec, Hmp3.
        eexists. reflexivity.
  - left. unfold convert_audio, convert_audio_body. rewrite Hf.
    eexists. reflexivity.
Qed.


(** X18.  When the decoder returns one channel the application never sends a
    file back: whatever the request is, the answer is an error. *)
Theorem mono_upload_is_never_converted (w : world) (req : request) :
  (forall p a, from_mp3 w p = Ok a -> channels a = 1%Z) ->
  exists msg status,
    fst (convert_audio w req) = Json msg status /\
    (status = 400 \/ status = 500)%Z.
Proof.
  intros Hmono.
  destruct (request_cases w req) as [[m Hrej] | (f & Hf & Hmp3)].
  { rewrite Hrej. exists m, 400%Z. split; [reflexivity | left; reflexivity]. }
  destruct (accepted_request_cases w req f Hf Hmp3) as (r & l & Hbody & Hr).
  unfold convert_audio. rewrite Hbody. destruct r as [resp | e].
  - exfalso. destruct Hr as (_ & _ & c & cmds & a & data & _ & _ & Ha & Hdata & _).
    rewrite (Hmono _ _ Ha) in Hdata.
    destruct (mono_file_error c (frame_rate a) (samples a) (sample_max a))
      as [e He].
    rewrite He in Hdata. discriminate.
  - exists (exn_msg e), 500%Z. split; [reflexivity | right; reflexivity].
Qed.

(** X19.  A file is sent back only when the name was accepted, the form gave
    a configuration that passed validation, the decoded samples went through
    the effects, and every call returned; by then the temporary WAV file has
    been unlinked and the upload removed, in this order, as the last two
    calls. *)
Theorem sent_file_means_cleaned_up (w : world) (req : request)
  (path name : string) :
  fst (convert_audio w req) = SendFile path name ->
  exists f c a data cmds,
    files_file req = Some f /\ is_mp3_path f = true /\
    path = output_path_of w f /\
    form_gives w req c /\ validated c /\
    from_mp3 w (input_path_of w f) = Ok a /\
    convert_file c (channels a) (frame_rate a) (samples a) (sample_max a) =
      Ok data /\
    snd (convert_audio w req) =
      Save (input_path_of w f) ::
      probes cmds ++ conversion_calls w path a data ++
      [Remove (input_path_of w f)] /\
    extern w (Unlink (temp_name w)) = Ok tt /\
    extern w (Remove (input_path_of w f)) = Ok tt.
Proof.
  intros H.
  destruct (request_cases w req) as [[m Hrej] | (f & Hf & Hmp3)].
  { rewrite Hrej in H. discriminate. }
  destruct (accepted_request_cases w req f Hf Hmp3) as (r & l & Hbody & Hr).
  unfold convert_audio in *. rewrite Hbody in *. destruct r as [resp | e];
    [| discriminate].
  cbn [fst snd] in *.
  destruct Hr as (-> & _ & c & cmds & a & data & Hform & Hval & Ha & Hdata &
                  -> & Hun & Hrm & _).
  inversion H; subst.
  exists f, c, a, data, cmds. repeat split; try assumption; apply Hform.
Qed.

Lemma run_invalid_parameters (w : world) (req : request) (f : string)
  (c : AudioConfig) (e : exn) :
  files_file req = Some f -> is_mp3_path f = true ->
  extern w (Save (input_path_of w f)) = Ok tt ->
  form_gives w req c -> _validate_config c = Err e ->
  convert_audio w req = (Json (exn_msg e) 500, [Save (input_path_of w f)]).
Proof.
  intros Hf Hmp3 Hsave (H1 & H2 & H3 & H4) Hval.
  unfold convert_audio, convert_audio_body. rewrite Hf.
  destruct (String.eqb_spec f EmptyString) as [E | _].
  { subst f. rewrite empty_name_is_not_mp3 in Hmp3. discriminate. }
  rewrite io_bind_eq. unfold io_lift at 1. rewrite allowed_file_spec, Hmp3.
  cbn [negb]. rewrite io_bind_eq. unfold perform at 1. rewrite Hsave.
  rewrite io_bind_eq. unfold io_lift at 1. rewrite H1.
  rewrite io_bind_eq. unfold io_lift at 1. rewrite H2.
  rewrite io_bind_eq. unfold io_lift at 1. rewrite H3.
  rewrite io_bind_eq. unfold io_lift at 1. rewrite H4.
  destruct c as [ps dp dl dc]. cbn [pan_speed depth reverb_delay reverb_decay].
  rewrite io_bind_eq. unfold Audio8DConverter_init. rewrite io_bind_eq.
  unfold io_lift. rewrite Hval. reflexivity.
Qed.

(** X20.  A parameter out of range is answered with the status 500 and the
    message of the validation, not with 400; the upload has been saved by
    then, and ffmpeg has not been looked for. *)
Theorem invalid_parameters_give_500 (w : world) (req : request) (f : string)
  (c : AudioConfig) (e : exn) :
  files_file req = Some f -> is_mp3_path f = true ->
  extern w (Save (input_path_of w f)) = Ok tt ->
  form_gives w req c -> _validate_config c = Err e ->
  convert_audio w req = (Json (exn_msg e) 500, [Save (input_path_of w f)]).
Proof. apply run_invalid_parameters. Qed.

Lemma check_ffmpeg_first (w : world) :
  os_system w (version_command "ffmpeg") = 0%Z ->
  forall tr, _check_ffmpeg w tr = (Ok tt, tr ++ probes ["ffmpeg"]).
Proof.
  intros H tr.
  apply (try_paths_found w [] "ffmpeg"
           ["/usr/bin/ffmpeg"; "/usr/local/bin/ffmpeg";
            "/opt/homebrew/bin/ffmpeg"] tr); [intros x [] | assumption].
Qed.

Lemma run_convert_file (w : world) (c : AudioConfig)
  (input_path output_path : string) (a : audio) (data : ndarray npfloat)
  (tr : list call) :
  path_exists w input_path = true -> is_mp3_path input_path = true ->
  (forall x, extern w x = Ok tt) ->
  from_mp3 w input_path = Ok a ->
  convert_file c (channels a) (frame_rate a) (samples a) (sample_max a) =
    Ok data ->
  convert_file_path w c input_path output_path tr =
    (Ok true, tr ++ conversion_calls w output_path a data).
Proof.
  intros Hex Hmp3 Hext Ha Hdata. unfold convert_file_path.
  rewrite Hex, Hmp3. cbn [negb].
  unfold io_bind, perform, io_lift, io_ret.
  rewrite !Hext, Ha, Hdata, !Hext. rewrite <- !app_assoc. reflexivity.
Qed.

Lemma run_converted_request (w : world) (req : request) (f : string)
  (c : AudioConfig) (a : audio) (data : ndarray npfloat) :
  files_file req = Some f -> is_mp3_path f = true ->
  (forall x, extern w x = Ok tt) ->
  form_gives w req c -> validated c ->
  os_system w (version_command "ffmpeg") = 0%Z ->
  path_exists w (input_path_of w f) = true ->
  from_mp3 w (input_path_of w f) = Ok a ->
  convert_file c (channels a) (frame_rate a) (samples a) (sample_max a) =
    Ok data ->
  convert_audio w req =
    (match send_file w (output_path_of w f)
             (splitext_root w (secure_filename w f) ++ "_8d.mp3") with
     | Ok _ => SendFile (output_path_of w f)
                 (splitext_root w (secure_filename w f) ++ "_8d.mp3")
     | Err e => Json (exn_msg e) 500
     end,
     Save (input_path_of w f) ::
     probes ["ffmpeg"] ++ conversion_calls w (output_path_of w f) a data ++
     [Remove (input_path_of w f)]).
Proof.
  intros Hf Hmp3 Hext (H1 & H2 & H3 & H4) Hval Hff Hex Ha Hdata.
  unfold convert_audio, convert_audio_body. rewrite Hf.
  destruct (String.eqb_spec f EmptyString) as [E | _].
  { subst f. rewrite empty_name_is_not_mp3 in Hmp3. discriminate. }
  rewrite io_bind_eq. unfold io_lift at 1. rewrite allowed_file_spec, Hmp3.
  cbn [negb]. rewrite io_bind_eq. unfold perform at 1. rewrite Hext.
  rewrite io_bind_eq. unfold io_lift at 1. rewrite H1.
  rewrite io_bind_eq. unfold io_lift at 1. rewrite H2.
  rewrite io_bind_eq. unfold io_lift at 1. rewrite H3.
  rewrite io_bind_eq. unfold io_lift at 1. rewrite H4.
  destruct c as [ps dp dl dc]. cbn [pan_speed depth reverb_delay reverb_decay].
  rewrite io_bind_eq. unfold Audio8DConverter_init. rewrite io_bind_eq.
  unfold io_lift at 1. rewrite Hval. rewrite io_bind_eq.
  rewrite (check_ffmpeg_first w Hff).
  unfold io_ret at 1. rewrite io_bind_eq.
  rewrite (run_convert_file w _ _ _ a data _ Hex
             (input_path_of_mp3 w f) Hext Ha Hdata).
  rewrite io_bind_eq. unfold perform. rewrite Hext.
  rewrite io_bind_eq. unfold io_lift, io_ret.
  destruct (send_file w (output_path_of w f)
              (splitext_root w (secure_filename w f) ++ "_8d.mp3")) as [[] | e];
    cbn [app]; rewrite <- !app_assoc; reflexivity.
Qed.

(** X21.  A request with an accepted name, parameters in range, ffmpeg at
    the first path, a decoder whose samples go through the effects, calls
    that all return and an output file that [send_file] can send, is answered
    with the converted file under the processed folder; the calls made are
    the save, one probe of ffmpeg, the five calls of the conversion and the
    removal of the upload. *)
Theorem well_formed_request_is_served (w : world) (req : request) (f : string)
  (c : AudioConfig) (a : audio) (data : ndarray npfloat) :
  files_file req = Some f -> is_mp3_path f = true ->
  (forall x, extern w x = Ok tt) ->
  form_gives w req c -> validated c ->
  os_system w (version_command "ffmpeg") = 0%Z ->
  path_exists w (input_path_of w f) = true ->
  from_mp3 w (input_path_of w f) = Ok a ->
  convert_file c (channels a) (frame_rate a) (samples a) (sample_max a) =
    Ok data ->
  send_file w (output_path_of w f)
    (splitext_root w (secure_filename w f) ++ "_8d.mp3") = Ok tt ->
  convert_audio w req =
    (SendFile (output_path_of w f)
       (splitext_root w (secure_filename w f) ++ "_8d.mp3"),
     Save (input_path_of w f) ::
     probes ["ffmpeg"] ++ conversion_calls w (output_path_of w f) a data ++
     [Remove (input_path_of w f)]).
Proof.
  intros Hf Hmp3 Hext Hform Hval Hff Hex Ha Hdata Hsend.
  rewrite (run_converted_request w req f c a data) by assumption.
  rewrite Hsend. reflexivity.
Qed.

(** ** Instances of the further properties *)

Lemma half_quarter_bounded :
  Forall (fun y => Rabs y <= 0.5) (elements (Arr2 1 [[0.5]; [0.25]])).
Proof.
  simpl. apply Forall_cons; [apply Rabs_le_iff; lra |].
  apply Forall_cons; [apply Rabs_le_iff; lra | apply Forall_nil].
Qed.

Lemma panning_returns_stereo_witness :
  exists l' r',
    _apply_panning default_config (Arr2 1 [[0.5]; [0.25]]) 8000 =
      Ok (Arr2 1 [l'; r']) /\
    length l' = 1%nat /\ length r' = 1%nat.
Proof.
  apply (proj1 (panning_returns_stereo default_config
                  (Arr2 1 [[0.5]; [0.25]]) 8000
                  ltac:(simpl; repeat constructor))).
  split; [lia |]. exists [0.5], [0.25]. reflexivity.
Defined.

Lemma panning_keeps_first_frame_witness :
  exists l' r',
    _apply_panning default_config (Arr2 1 [[0.5]; [0.25]]) 8000 =
      Ok (Arr2 1 [l'; r']) /\
    nth 0 l' 0 = 0.5 /\ nth 0 r' 0 = 0.25.
Proof.
  apply (panning_keeps_first_frame default_config (Arr2 1 [[0.5]; [0.25]]) 8000
           [0.5] [0.25]).
  - simpl. repeat constructor.
  - lia.
  - simpl. lia.
  - reflexivity.
Defined.

Lemma panning_depth_zero_is_identity_witness :
  _apply_panning
    {| pan_speed := 0.5; depth := 0; reverb_delay := 50; reverb_decay := 0.3 |}
    (Arr2 2 [[0.5; -0.5]; [0.25; 1]]) 8000 =
  Ok (Arr2 2 [[0.5; -0.5]; [0.25; 1]]).
Proof.
  apply (panning_depth_zero_is_identity
           {| pan_speed := 0.5; depth := 0; reverb_delay := 50;
              reverb_decay := 0.3 |} [0.5; -0.5] [0.25; 1] 8000).
  - reflexivity.
  - lia.
  - reflexivity.
Defined.

Lemma panning_gains_witness :
  exists l' r',
    _apply_panning default_config (Arr2 1 [[0.5]; [0.25]]) 8000 =
      Ok (Arr2 1 [l'; r']) /\
    forall i, (i < 1)%nat ->
      exists g, 1 - 0.95 <= g <= 1 + 0.95 /\ 0 <= g <= 2 /\
                nth i l' 0 = nth i [0.5] 0 * g /\
                nth i r' 0 = nth i [0.25] 0 * (2 - g).
Proof.
  apply (panning_gains default_config (Arr2 1 [[0.5]; [0.25]]) 8000
           [0.5] [0.25]).
  - exact validated_default.
  - simpl. repeat constructor.
  - lia.
  - reflexivity.
Defined.

Lemma reverb_amplitude_bound_witness :
  exists out,
    _apply_reverb default_config (Arr2 1 [[0.5]; [0.25]]) 8000 =
      Ok (Arr2 1 out) /\
    length out = 2%nat /\
    wf (Arr2 1 out) /\
    Forall (fun y => Rabs y <= (1.5 + 0.5 * 0.3) * 0.5 /\ Rabs y <= 2 * 0.5)
           (elements (Arr2 1 out)).
Proof.
  apply (reverb_amplitude_bound default_config 8000 1 [[0.5]; [0.25]] 0.5).
  - exact validated_default.
  - change (delay_samples default_config 8000) with 400%Z; lia.
  - lia.
  - simpl. repeat constructor.
  - exact half_quarter_bounded.
Defined.

Lemma effects_return_iff_witness :
  exists l' r',
    apply_effects default_config (Arr2 1 [[0.5]; [0.25]]) 8000 =
      Ok (Arr2 1 [l'; r']) /\
    length l' = 1%nat /\ length r' = 1%nat.
Proof.
  apply (proj1 (effects_return_iff default_config (Arr2 1 [[0.5]; [0.25]]) 8000
                  ltac:(simpl; repeat constructor))).
  split; [lia |]. split; [exists [0.5], [0.25]; reflexivity |].
  split; [simpl; lia |].
  change (delay_samples default_config 8000) with 400%Z; lia.
Defined.

Lemma int16_scaling_in_range_witness :
  exists (normalized : ndarray npfloat) (q : ndarray Z),
    normalize (Arr2 1 [[0.5]; [0.25]]) = Ok normalized /\
    scale_to_int16 normalized = amap Some q /\
    Forall (fun z => (-32767 <= z <= 32767)%Z) (elements q) /\
    Exists (fun z => Z.abs z = 32767%Z) (elements q).
Proof.
  apply int16_scaling_in_range.
  simpl. apply Exists_cons_hd. lra.
Defined.

Lemma allowed_file_last_extension_witness :
  allowed_file "song.tar.MP3" = Ok true /\ allowed_file "MP3" = Ok false.
Proof.
  apply (allowed_file_last_extension "song.tar" "MP3"). reflexivity.
Defined.

Lemma check_ffmpeg_stops_at_first_witness :
  _check_ffmpeg example_world [] = (Ok tt, probes ["ffmpeg"]).
Proof.
  apply (proj1 (check_ffmpeg_stops_at_first example_world [])
           [] "ffmpeg"
           ["/usr/bin/ffmpeg"; "/usr/local/bin/ffmpeg";
            "/opt/homebrew/bin/ffmpeg"]).
  - reflexivity.
  - intros x [].
  - reflexivity.
Defined.

Lemma depth_out_of_range :
  _validate_config
    {| pan_speed := 0.5; depth := 7; reverb_delay := 50; reverb_decay := 0.3 |} =
  Err (ValueError "Depth must be between 0 and 1").
Proof.
  unfold _validate_config. cbn [pan_speed depth].
  rewrite (proj2 (open_closed_spec 0 0.5 2)) by lra.
  rewrite (Rleb_false 7 1) by lra. rewrite andb_false_r. reflexivity.
Qed.

Lemma init_validates_before_probing_witness :
  Audio8DConverter_init example_world
    (Some {| pan_speed := 0.5; depth := 7; reverb_delay := 50;
             reverb_decay := 0.3 |}) [] =
  (Err (ValueError "Depth must be between 0 and 1"), []).
Proof.
  apply (proj1 (init_validates_before_probing example_world [])).
  exact depth_out_of_range.
Defined.

Lemma example_samples_convert :
  exists data,
    convert_file default_config (channels example_audio)
      (frame_rate example_audio) (samples example_audio)
      (sample_max example_audio) = Ok data.
Proof.
  unfold convert_file. cbn [example_audio channels frame_rate samples sample_max].
  change (reshape_samples 2 [16384; 8192]%Z)
    with (Ok (Arr2 1 [[16384%Z]; [8192%Z]])).
  cbn [bind amap map].
  destruct (effects_return default_config
              (Arr2 1 [[IZR 16384 / IZR 32767]; [IZR 8192 / IZR 32767]]) 8000
              [IZR 16384 / IZR 32767] [IZR 8192 / IZR 32767])
    as (l' & r' & H & _).
  - simpl. repeat constructor.
  - lia.
  - reflexivity.
  - simpl. lia.
  - change (delay_samples default_config 8000) with 400%Z; lia.
  - eexists. exact H.
Qed.

Lemma failing_export_run :
  exists data,
    convert_file_path failing_export_world default_config
      "uploads/song.mp3" "processed/song_8d.mp3" [] =
    (Err (RuntimeError "encoding failed"),
     [MakeDirs "processed/song_8d.mp3"; TempFile "/tmp/tmp0.wav";
      WriteWav "/tmp/tmp0.wav" 2 2 8000 (scale_to_int16 data);
      Export "/tmp/tmp0.wav" "processed/song_8d.mp3"]).
Proof.
  destruct example_samples_convert as [data Hdata]. exists data.
  unfold convert_file_path.
  change (is_mp3_path "uploads/song.mp3") with true.
  cbn [path_exists failing_export_world example_world negb].
  unfold io_bind, perform, io_lift, io_ret.
  cbn [extern from_mp3 failing_export_world example_world temp_name].
  rewrite Hdata. reflexivity.
Qed.

Lemma convert_file_leaves_temp_on_error_witness :
  exists data,
    let tr := [MakeDirs "processed/song_8d.mp3"; TempFile "/tmp/tmp0.wav";
               WriteWav "/tmp/tmp0.wav" 2 2 8000 (scale_to_int16 data);
               Export "/tmp/tmp0.wav" "processed/song_8d.mp3"] in
    Forall (conversion_call failing_export_world "processed/song_8d.mp3") tr /\
    ~ (In (Unlink (temp_name failing_export_world)) tr /\
       extern failing_export_world (Unlink (temp_name failing_export_world)) =
       Ok tt).
Proof.
  destruct failing_export_run as [data Hrun]. exists data.
  exact (convert_file_leaves_temp_on_error _ _ _ _ _ _ Hrun).
Defined.

Lemma rejected_uploads_touch_nothing_witness :
  convert_audio example_world {| files_file := None; form := fun _ => None |} =
  (Json "No file uploaded" 400, []).
Proof.
  apply (proj1 (rejected_uploads_touch_nothing example_world
                  {| files_file := None; form := fun _ => None |})).
  reflexivity.
Defined.

Lemma out_of_range_run :
  convert_audio out_of_range_world out_of_range_request =
  (Json "Depth must be between 0 and 1" 500,
   [Save (input_path_of out_of_range_world "song.mp3")]).
Proof.
  apply (run_invalid_parameters out_of_range_world out_of_range_request
           "song.mp3"
           {| pan_speed := 0.5; depth := 7; reverb_delay := 50;
              reverb_decay := 0.3 |}
           (ValueError "Depth must be between 0 and 1")).
  - reflexivity.
  - reflexivity.
  - reflexivity.
  - repeat split; reflexivity.
  - exact depth_out_of_range.
Qed.



Lemma mono_upload_is_never_converted_witness :
  exists msg status,
    fst (convert_audio mono_world example_request) = Json msg status /\
    (status = 400 \/ status = 500)%Z.
Proof.
  apply mono_upload_is_never_converted.
  intros p a H. inversion H. reflexivity.
Defined.

Lemma example_form_gives_default :
  form_gives example_world example_request default_config.
Proof. repeat split; reflexivity. Qed.

Lemma example_run :
  exists data,
    convert_audio example_world example_request =
    (SendFile "processed/song_20240101_120000_8d.mp3" "song_8d.mp3",
     Save "uploads/song_20240101_120000.mp3" ::
     probes ["ffmpeg"] ++
     conversion_calls example_world "processed/song_20240101_120000_8d.mp3"
       example_audio data ++
     [Remove "uploads/song_20240101_120000.mp3"]).
Proof.
  destruct example_samples_convert as [data Hdata]. exists data.
  apply (run_converted_request example_world example_request "song.mp3"
           default_config example_audio data).
  - reflexivity.
  - reflexivity.
  - intros x. reflexivity.
  - exact example_form_gives_default.
  - exact validated_default.
  - reflexivity.
  - reflexivity.
  - reflexivity.
  - exact Hdata.
Qed.

Lemma sent_file_means_cleaned_up_witness :
  exists f c a data cmds,
    files_file example_request = Some f /\ is_mp3_path f = true /\
    "processed/song_20240101_120000_8d.mp3" = output_path_of example_world f /\
    form_gives example_world example_request c /\ validated c /\
    from_mp3 example_world (input_path_of example_world f) = Ok a /\
    convert_file c (channels a) (frame_rate a) (samples a) (sample_max a) =
      Ok data /\
    snd (convert_audio example_world example_request) =
      Save (input_path_of example_world f) ::
      probes cmds ++
      conversion_calls example_world "processed/song_20240101_120000_8d.mp3"
        a data ++
      [Remove (input_path_of example_world f)] /\
    extern example_world (Unlink (temp_name example_world)) = Ok tt /\
    extern example_world (Remove (input_path_of example_world f)) = Ok tt.
Proof.
  destruct example_run as [data Hrun].
  apply (sent_file_means_cleaned_up example_world example_request
           "processed/song_20240101_120000_8d.mp3" "song_8d.mp3").
  rewrite Hrun. reflexivity.
Defined.

Lemma invalid_parameters_give_500_witness :
  convert_audio out_of_range_world out_of_range_request =
  (Json "Depth must be between 0 and 1" 500,
   [Save "uploads/song_20240101_120000.mp3"]).
Proof.
  apply (invalid_parameters_give_500 out_of_range_world out_of_range_request
           "song.mp3"
           {| pan_speed := 0.5; depth := 7; reverb_delay := 50;
              reverb_decay := 0.3 |}
           (ValueError "Depth must be between 0 and 1")).
  - reflexivity.
  - reflexivity.
  - reflexivity.
  - repeat split; reflexivity.
  - exact depth_out_of_range.
Defined.

Lemma well_formed_request_is_served_witness :
  exists data,
    convert_audio example_world example_request =
    (SendFile "processed/song_20240101_120000_8d.mp3" "song_8d.mp3",
     Save "uploads/song_20240101_120000.mp3" ::
     probes ["ffmpeg"] ++
     conversion_calls example_world "processed/song_20240101_120000_8d.mp3"
       example_audio data ++
     [Remove "uploads/song_20240101_120000.mp3"]).
Proof.
  destruct example_samples_convert as [data Hdata]. exists data.
  apply (well_formed_request_is_served example_world example_request "song.mp3"
           default_config example_audio data).
  - reflexivity.
  - reflexivity.
  - intros x. reflexivity.
  - exact example_form_gives_default.
  - exact validated_default.
  - reflexivity.
  - reflexivity.
  - reflexivity.
  - exact Hdata.
  - reflexivity.
Defined.
